(** * wavemeter_readout: the acquisition loop, the display window and the
      process life cycle of [wavemeter_readout.py], embedded in Rocq.

    Python floats are IEEE-754 binary64 numbers: they are modelled by Rocq's
    primitive floats, whose operations are specified by [SpecFloat].  Dicts
    and the file system are finite maps and sets.  The acquisition loop is a
    small-step machine whose program points are the source lines of
    [measurement_loop]; what the loop reads from outside (the clock, the
    random generator, the instrument, the builtin [float]) is an oracle. *)

From Stdlib Require Import ZArith Lia Bool Ascii String Floats.
From stdpp Require Import base gmap sets list strings sorting.

(** ** Binary64 rounding, as [SpecFloat] computes it *)

Local Open Scope Z_scope.

(** The record [SpecFloat.shr] holds after [k] one-bit right shifts of [m]:
    quotient, round bit and sticky bit. *)
Definition shr_state (m : Z) (k : nat) : shr_record :=
  match k with
  | O => Build_shr_record m false false
  | S j => Build_shr_record (m / 2 ^ Z.of_nat k) (Z.testbit m (Z.of_nat j))
                           (negb (m mod 2 ^ Z.of_nat j =? 0))
  end.

(** [m / 2^n] rounded to the nearest integer, ties to even. *)
Definition rne_shift (m n : Z) : Z :=
  if n <=? 0 then m else
  let q := m / 2 ^ n in
  let r := m mod 2 ^ n in
  let h := 2 ^ (n - 1) in
  if r <? h then q
  else if h <? r then q + 1
  else if Z.even q then q else q + 1.

Definition digits (V : Z) : Z := Z.log2 V + 1.

(** Exponent of the binary64 number nearest to [V * 2^c]. *)
Definition rexp (V c : Z) : Z := fexp prec emax (digits V + c).

Definition mk_float (s : bool) (q E : Z) : spec_float :=
  match q with
  | Z0 => S754_zero s
  | Zpos m => if E <=? emax - prec then S754_finite s m E else S754_infinity s
  | Zneg _ => S754_nan
  end.

Definition rq (V c : Z) : Z :=
  let q := rne_shift V (rexp V c - c) in if q =? 2 ^ prec then 2 ^ (prec - 1) else q.

Definition rE (V c : Z) : Z :=
  let q := rne_shift V (rexp V c - c) in if q =? 2 ^ prec then rexp V c + 1 else rexp V c.

(** The binary64 number nearest to [V * 2^c], for [0 < V] and [c <= emin]. *)
Definition round_pos (s : bool) (V c : Z) : spec_float := mk_float s (rq V c) (rE V c).

Definition lex_le (q1 E1 q2 E2 : Z) : Prop :=
  q1 = 0 \/ (0 < q1 /\ 0 < q2 /\ (E1 < E2 \/ (E1 = E2 /\ q1 <= q2))).

(** The value of a finite float in units of [2^c]. *)
Definition sval (c : Z) (x : spec_float) : Z :=
  match x with
  | S754_finite s m e => cond_Zopp s (Zpos m * 2 ^ (e - c))
  | _ => 0
  end.

Definition sf_finite (x : spec_float) : bool :=
  match x with
  | S754_zero _ | S754_finite _ _ _ => true
  | _ => false
  end.

Local Close Scope Z_scope.

(** ** Python library functions the program calls *)

(** [random.uniform(a, b)] is [a + (b - a) * self.random()]; [r] is the
    output of [random.random()], a float of the interval [0.0, 1.0). *)
Definition uniform (a b r : float) : float := (a + (b - a) * r)%float.

(** [random.random()] builds its result from 53 random bits [k]. *)
Definition random_of_bits (k : Z) : float :=
  (of_uint63 (Uint63.of_Z k) * (1 / 9007199254740992))%float.

(** [l[start:]] *)
Definition py_slice_from {A} (l : list A) (start : Z) : list A :=
  let n := Z.of_nat (length l) in
  let i := if (start <? 0)%Z then Z.max (start + n) 0 else Z.min start n in
  drop (Z.to_nat i) l.

Inductive exn :=
  | KeyError (key : string)
  | ValueError (arg : string)
  | AttributeError
  | VisaIOError
  | KeyboardInterrupt
  | FileNotFoundError (path : string)
  | FileExistsError (path : string).

Definition nl : string := String "010"%char EmptyString.

(** *** Paths ([posixpath]) *)

Definition is_sep (c : ascii) : bool := Ascii.eqb c "/"%char.

Definition starts_with_sep (s : string) : bool :=
  match s with
  | String c _ => is_sep c
  | EmptyString => false
  end.

Fixpoint ends_with_sep (s : string) : bool :=
  match s with
  | EmptyString => false
  | String c EmptyString => is_sep c
  | String _ s' => ends_with_sep s'
  end.

Fixpoint has_sep (s : string) : bool :=
  match s with
  | EmptyString => false
  | String c s' => is_sep c || has_sep s'
  end.

Fixpoint all_sep (s : string) : bool :=
  match s with
  | EmptyString => true
  | String c s' => is_sep c && all_sep s'
  end.

(** [os.path.join(a, b)] *)
Definition path_join (a b : string) : string :=
  if starts_with_sep b then b
  else if String.eqb a "" || ends_with_sep a then a +:+ b
  else a +:+ "/" +:+ b.

(** [p[:p.rfind('/') + 1]] *)
Fixpoint head_upto_last_sep (p : string) : string :=
  match p with
  | EmptyString => EmptyString
  | String c p' => if has_sep p then String c (head_upto_last_sep p') else EmptyString
  end.

(** [s.rstrip('/')] *)
Fixpoint rstrip_sep (s : string) : string :=
  match s with
  | EmptyString => EmptyString
  | String c s' => if all_sep s then EmptyString else String c (rstrip_sep s')
  end.

(** [os.path.dirname(p)] *)
Definition dirname (p : string) : string :=
  let head := head_upto_last_sep p in
  if negb (String.eqb head "") && negb (all_sep head) then rstrip_sep head else head.

(** The directories [os.makedirs(p)] walks through above [p]: the prefixes
    of [p] that end before a separator. *)
Fixpoint parents_from (acc p : string) : list string :=
  match p with
  | EmptyString => []
  | String c p' =>
      (if is_sep c && negb (String.eqb acc "") then [acc] else [])
      ++ parents_from (acc +:+ String c EmptyString) p'
  end.

(** *** Files *)

Inductive cell :=
  | CStr (s : string)
  | CFloat (x : float).

(** A file system: the directories that exist, and the rows each CSV file
    holds on disk. *)
Record FileSystem := mkFS {
  dirs : gset string;
  files : gmap string (list (list cell))
}.

(** [os.makedirs(p, exist_ok=True)] *)
Definition makedirs (fs : FileSystem) (p : string) : FileSystem + exn :=
  let chain := parents_from "" p ++ [p] in
  match list_find (fun d => bool_decide (is_Some (files fs !! d))) chain with
  | Some (_, d) => inr (FileExistsError d)
  | None => inl (mkFS (dirs fs ∪ list_to_set chain) (files fs))
  end.

(** [open(p, 'w')]: the file is created, or truncated, at once. *)
Definition open_w (fs : FileSystem) (p : string) : FileSystem + exn :=
  if bool_decide (dirname p ∈ dirs fs)
  then inl (mkFS (dirs fs) (<[p := []]> (files fs)))
  else inr (FileNotFoundError p).

(** [csvfile.flush()]: the buffered rows reach the disk. *)
Definition flush_rows (fs : FileSystem) (p : string) (buf : list (list cell)) : FileSystem :=
  mkFS (dirs fs) (<[p := default [] (files fs !! p) ++ buf]> (files fs)).

(** ** The objects of the program *)

(** [threading.Event] *)
Record Event := mkEvent { flag : bool }.

Definition Event_new : Event := mkEvent false.
Definition Event_set (e : Event) : Event := mkEvent true.
Definition is_set (e : Event) : bool := flag e.

(** What the program prints: plain text, and the status line of line 116,
    whose two numbers are kept as floats. *)
Inductive out :=
  | Text (s : string)
  | Status (time_val wavelength_val : float).

(** An instrument reply to [wm.query]: a string, or a [VisaIOError]. *)
Inductive reply :=
  | Reply (s : string)
  | Timeout.

(** What the loop reads from outside, call after call. *)
Record Env := mkEnv {
  perf_counter : nat -> float;
  random : nat -> float;
  query : nat -> reply;
  py_float : string -> option float
}.

(** The state the threads share. *)
Record World := mkWorld {
  stop_event : Event;
  fs : FileSystem;
  stdout : list out;
  clock_reads : nat;
  random_draws : nat;
  queries : nat;
  bus : list string;
  data_signal : list (float * float)
}.

Definition set_stop_event (e : Event) (w : World) : World :=
  mkWorld e (fs w) (stdout w) (clock_reads w) (random_draws w) (queries w) (bus w) (data_signal w).
Definition set_fs (x : FileSystem) (w : World) : World :=
  mkWorld (stop_event w) x (stdout w) (clock_reads w) (random_draws w) (queries w) (bus w) (data_signal w).
Definition put (o : out) (w : World) : World :=
  mkWorld (stop_event w) (fs w) (stdout w ++ [o]) (clock_reads w) (random_draws w) (queries w)
          (bus w) (data_signal w).
Definition print (s : string) (w : World) : World := put (Text s) w.
Definition clock_read (w : World) : World :=
  mkWorld (stop_event w) (fs w) (stdout w) (S (clock_reads w)) (random_draws w) (queries w)
          (bus w) (data_signal w).
Definition random_drawn (w : World) : World :=
  mkWorld (stop_event w) (fs w) (stdout w) (clock_reads w) (S (random_draws w)) (queries w)
          (bus w) (data_signal w).
(** [wm.write(cmd)] *)
Definition wm_write (cmd : string) (w : World) : World :=
  mkWorld (stop_event w) (fs w) (stdout w) (clock_reads w) (random_draws w) (queries w)
          (bus w ++ [cmd]) (data_signal w).
(** The request half of [wm.query(cmd)]. *)
Definition wm_ask (cmd : string) (w : World) : World :=
  mkWorld (stop_event w) (fs w) (stdout w) (clock_reads w) (random_draws w) (S (queries w))
          (bus w ++ [cmd]) (data_signal w).
(** [plot_window.data_signal.emit(t, v)]: queued for the GUI thread. *)
Definition emit (t v : float) (w : World) : World :=
  mkWorld (stop_event w) (fs w) (stdout w) (clock_reads w) (random_draws w) (queries w)
          (bus w) (data_signal w ++ [(t, v)]).

Definition INSTRUMENT_RESOURCE : string := "GPIB0::4::INSTR".

(** ** [configure_wavemeter] *)

Definition configure_wavemeter (wm : option string) (prop res medium ave : string)
    (w : World) : World :=
  match wm with
  | None => print "Debug mode: Skipping wavemeter configuration." w
  | Some _ =>
      print "WaveMeter Configured"
        (wm_write (":SENSe:MEDium " +:+ medium)
          (wm_write (":SENSe:AVERage " +:+ ave)
            (wm_write (":DISPlay:RESolution " +:+ res)
              (wm_write (":CONFigure:" +:+ prop)
                (print "Configuring WaveMeter" w)))))
  end.

(** ** [PlotWindow] *)

Record PlotWindow := mkPlotWindow {
  max_points : Z;
  wm_time : list float;
  wm_wavelength : list float;
  curve : list float * list float
}.

(** [PlotWindow.__init__] *)
Definition PlotWindow_init (max_points : Z) : PlotWindow :=
  mkPlotWindow max_points [] [] ([], []).

Definition default_max_points : Z := 500.

Definition update_plot (self : PlotWindow) : PlotWindow :=
  if (0 <? length (wm_time self))%nat
  then mkPlotWindow (max_points self) (wm_time self) (wm_wavelength self)
         (py_slice_from (wm_time self) (- max_points self),
          py_slice_from (wm_wavelength self) (- max_points self))
  else self.

Definition add_data (self : PlotWindow) (time_val wavelength_val : float) : PlotWindow :=
  mkPlotWindow (max_points self) (wm_time self ++ [time_val])
    (wm_wavelength self ++ [wavelength_val]) (curve self).

(** [closeEvent], with the slot [lambda: stop_event.set()] that [main]
    connects to [close_signal]. *)
Definition closeEvent (w : World) : World :=
  set_stop_event (Event_set (stop_event w))
    (print (nl +:+ "Plot window closed. Stopping measurement...") w).

(** The points handed to the window, one [add_data] each. *)
Definition add_all (self : PlotWindow) (points : list (float * float)) : PlotWindow :=
  fold_left (fun p tv => add_data p tv.1 tv.2) points self.

(** ** [measurement_loop] *)

(** The arguments of [measurement_loop] other than the shared stop event;
    [plot_window] tells whether a window was passed. *)
Record LoopArgs := mkLoopArgs {
  wm : option string;
  config_dict : gmap string string;
  plot_window : bool;
  debug_mode : bool
}.

(** Program points: the source line about to run.  [Lexit] is the end of
    the [with] block, reached normally or with a pending exception. *)
Inductive pc :=
  | L95 | L96 | L98 | L100 | L101
  | L107 | L108 | L110 | L116 | L119 | L120 | L123 | L126
  | L128
  | Lexit (pending : option exn)
  | L132
  | Ldone
  | Lraised (e : exn).

(** The locals of [measurement_loop]; [csvfile] holds the rows written and
    not yet flushed, and is [None] while no file is open. *)
Record Frame := mkFrame {
  at_line : pc;
  t_start : float;
  output_file : string;
  csvfile : option (list (list cell));
  current_time : float;
  current_wavelength : float
}.

Definition goto (l : pc) (f : Frame) : Frame :=
  mkFrame l (t_start f) (output_file f) (csvfile f) (current_time f) (current_wavelength f).
Definition set_t_start (x : float) (f : Frame) : Frame :=
  mkFrame (at_line f) x (output_file f) (csvfile f) (current_time f) (current_wavelength f).
Definition set_output_file (p : string) (f : Frame) : Frame :=
  mkFrame (at_line f) (t_start f) p (csvfile f) (current_time f) (current_wavelength f).
Definition set_csvfile (c : option (list (list cell))) (f : Frame) : Frame :=
  mkFrame (at_line f) (t_start f) (output_file f) c (current_time f) (current_wavelength f).
Definition set_current_time (x : float) (f : Frame) : Frame :=
  mkFrame (at_line f) (t_start f) (output_file f) (csvfile f) x (current_wavelength f).
Definition set_current_wavelength (x : float) (f : Frame) : Frame :=
  mkFrame (at_line f) (t_start f) (output_file f) (csvfile f) (current_time f) x.

Definition Frame_init : Frame := mkFrame L95 0%float "" None 0%float 0%float.

Definition header : list cell := [CStr "Time (s)"; CStr "Wavelength"].

(** An exception raised inside the [try] block: only [KeyboardInterrupt]
    has a handler (line 128); any other one leaves the [with] block. *)
Definition raise_in_try (e : exn) (f : Frame) : Frame :=
  match e with
  | KeyboardInterrupt => goto L128 f
  | _ => goto (Lexit (Some e)) f
  end.

Definition closed_file : string := "I/O operation on closed file.".

(** One statement of [measurement_loop]. *)
Definition step (env : Env) (a : LoopArgs) (w : World) (f : Frame) : World * Frame :=
  match at_line f with
  | L95 => (clock_read w, goto L96 (set_t_start (perf_counter env (clock_reads w)) f))
  | L96 =>
      match config_dict a !! "readout_dir" with
      | Some d => (w, goto L98 (set_output_file (path_join d "wavemeter_readout.csv") f))
      | None => (w, goto (Lraised (KeyError "readout_dir")) f)
      end
  | L98 =>
      match open_w (fs w) (output_file f) with
      | inl fs' => (set_fs fs' w, goto L100 (set_csvfile (Some []) f))
      | inr e => (w, goto (Lraised e) f)
      end
  | L100 =>
      match csvfile f with
      | Some buf => (w, goto L101 (set_csvfile (Some (buf ++ [header])) f))
      | None => (w, goto (Lexit (Some (ValueError closed_file))) f)
      end
  | L101 =>
      (print (if plot_window a
              then "Measurement started. Close the plot window to stop."
              else "Measurement started. Press Ctrl+C to stop.") w,
       goto L107 f)
  | L107 => (w, goto (if is_set (stop_event w) then Lexit None else L108) f)
  | L108 =>
      (clock_read w,
       goto L110 (set_current_time (perf_counter env (clock_reads w) - t_start f)%float f))
  | L110 =>
      if debug_mode a
      then (random_drawn w,
            goto L116 (set_current_wavelength
                         (uniform 500 600 (random env (random_draws w))) f))
      else
        match wm a with
        | None => (w, raise_in_try AttributeError f)
        | Some _ =>
            match config_dict a !! "property" with
            | None => (w, raise_in_try (KeyError "property") f)
            | Some p =>
                let w' := wm_ask (":MEASure:" +:+ p +:+ "?") w in
                match query env (queries w) with
                | Timeout => (w', raise_in_try VisaIOError f)
                | Reply s =>
                    match py_float env s with
                    | None => (w', raise_in_try (ValueError s) f)
                    | Some x => (w', goto L116 (set_current_wavelength x f))
                    end
                end
            end
        end
  | L116 => (put (Status (current_time f) (current_wavelength f)) w, goto L119 f)
  | L119 =>
      match csvfile f with
      | Some buf =>
          (w, goto L120 (set_csvfile
                           (Some (buf ++ [[CFloat (current_time f);
                                           CFloat (current_wavelength f)]])) f))
      | None => (w, raise_in_try (ValueError closed_file) f)
      end
  | L120 =>
      match csvfile f with
      | Some buf => (set_fs (flush_rows (fs w) (output_file f) buf) w,
                     goto L123 (set_csvfile (Some []) f))
      | None => (w, raise_in_try (ValueError closed_file) f)
      end
  | L123 =>
      (if plot_window a then emit (current_time f) (current_wavelength f) w else w,
       goto L126 f)
  | L126 => (w, goto L107 f)
  | L128 =>
      (set_stop_event (Event_set (stop_event w))
         (print (nl +:+ "Measurement stopped by user.") w),
       goto (Lexit None) f)
  | Lexit pending =>
      (match csvfile f with
       | Some buf => set_fs (flush_rows (fs w) (output_file f) buf) w
       | None => w
       end,
       goto (match pending with Some e => Lraised e | None => L132 end)
            (set_csvfile None f))
  | L132 => (print (nl +:+ "Measurement loop exiting...") w, goto Ldone f)
  | Ldone | Lraised _ => (w, f)
  end.

(** A [KeyboardInterrupt] delivered before the statement at [at_line]. *)
Definition interrupt (f : Frame) : Frame :=
  match at_line f with
  | L95 | L96 | L98 => goto (Lraised KeyboardInterrupt) f
  | L100 | L101 => goto (Lexit (Some KeyboardInterrupt)) f
  | L107 | L108 | L110 | L116 | L119 | L120 | L123 | L126 => goto L128 f
  | L128 | Lexit _ | L132 | Ldone | Lraised _ => f
  end.

(** What can happen next while the loop runs: the loop runs one statement,
    another thread sets the stop event, or an interruption is delivered. *)
Inductive action :=
  | AStep
  | ASetStop
  | AInterrupt.

Definition act (env : Env) (a : LoopArgs) (s : World * Frame) (x : action) : World * Frame :=
  match x with
  | AStep => step env a s.1 s.2
  | ASetStop => (set_stop_event (Event_set (stop_event s.1)) s.1, s.2)
  | AInterrupt => (s.1, interrupt s.2)
  end.

Definition exec (env : Env) (a : LoopArgs) (sched : list action) (s : World * Frame)
    : World * Frame :=
  fold_left (act env a) sched s.

(** [measurement_loop] under a schedule, from its first line. *)
Definition measurement_loop (env : Env) (a : LoopArgs) (sched : list action) (w : World)
    : World * Frame :=
  exec env a sched (w, Frame_init).

Definition finished (f : Frame) : bool :=
  match at_line f with
  | Ldone | Lraised _ => true
  | _ => false
  end.

(** ** The log, as a reader of the file and of the buffer sees it *)

Definition on_disk (s : World * Frame) : list (list cell) :=
  default [] (files (fs s.1) !! output_file s.2).

Definition buffered (s : World * Frame) : list (list cell) :=
  default [] (csvfile s.2).

(** Every row written so far, flushed or not. *)
Definition written (s : World * Frame) : list (list cell) := on_disk s ++ buffered s.

(** The data rows: what follows the first row. *)
Definition samples (s : World * Frame) : list (list cell) := tail (written s).

Definition row_time (r : list cell) : option float :=
  match r with
  | [CFloat t; CFloat _] => Some t
  | _ => None
  end.

Definition row_value (r : list cell) : option float :=
  match r with
  | [CFloat _; CFloat v] => Some v
  | _ => None
  end.

Definition is_sample_row (r : list cell) : bool :=
  match r with
  | [CFloat t; CFloat _] => (0 <=? t)%float
  | _ => false
  end.

Fixpoint nondecreasing (l : list float) : bool :=
  match l with
  | x :: (y :: _) as l' => (x <=? y)%float && nondecreasing l'
  | _ => true
  end.

Definition in_closed_range (v : float) : bool := (500 <=? v)%float && (v <=? 600)%float.
Definition in_half_open_range (v : float) : bool := (500 <=? v)%float && (v <? 600)%float.

(** The clock is monotonic and its readings are finite numbers. *)
Definition monotonic_clock (env : Env) : Prop :=
  (forall n, PrimFloat.is_finite (perf_counter env n) = true) /\
  (forall n m, (n <= m)%nat -> (perf_counter env n <=? perf_counter env m)%float = true).

(** [random.random()] returns a float of [0.0, 1.0). *)
Definition unit_random (env : Env) : Prop :=
  forall n, (0 <=? random env n)%float = true /\ (random env n <? 1)%float = true.

(** ** [main] *)

(** The parsed command line. *)
Record Args := mkArgs {
  graph : bool;
  property : string;
  resolution : string;
  medium : string;
  averaging : string;
  debug : bool
}.

Definition default_args : Args := mkArgs false "WAVelength" ".001" "air" "OFF" false.

(** [rm.open_resource] followed by [wm.query('*IDN?')]: the identification
    string, or a [VisaIOError]. *)
Inductive connect_result :=
  | Connected (idn : string)
  | ConnectFails.

(** What [main] reads from the machine it runs on. *)
Record Host := mkHost {
  getcwd : string;
  now : string;
  open_resource : connect_result
}.

(** Where the main thread stands once the measurement thread is started:
    waiting in the [try] block (line 194 or 196), waiting at the [join] of
    the handler (line 206), or gone. *)
Inductive main_pc :=
  | M194
  | M206
  | Mreturned
  | Mexit (code : Z)
  | Muncaught (e : exn).

Record Proc := mkProc {
  world : World;
  thread : option (LoopArgs * Frame);
  window : option PlotWindow;
  window_open : bool;
  wm_open : bool;
  main_at : main_pc;
  readout_dir : string
}.

Definition make_readout_dir (h : Host) : string :=
  path_join (path_join (getcwd h) "readout") (now h).

Definition make_config_dict (args : Args) (dir : string) : gmap string string :=
  <["readout_dir" := dir]>
    (<["averaging" := averaging args]>
      (<["medium" := medium args]>
        (<["resolution" := resolution args]>
          (<["property" := property args]> ∅)))).

(** Lines 136 to 190: up to the start of the measurement thread. *)
Definition main_start (args : Args) (h : Host) (w : World) : Proc :=
  let dir := make_readout_dir h in
  match makedirs (fs w) dir with
  | inr e => mkProc w None None false false (Muncaught e) dir
  | inl fs1 =>
      let w1 := set_fs fs1 w in
      let connected :=
        if debug args
        then Some (None, print "Debug mode enabled: No hardware connection." w1)
        else match open_resource h with
             | Connected idn =>
                 Some (Some INSTRUMENT_RESOURCE,
                       print ("Connected to instrument: " +:+ idn) (wm_write "*IDN?" w1))
             | ConnectFails => None
             end in
      match connected with
      | None => mkProc (print "Error querying wavemeter" w1) None None false false Mreturned dir
      | Some (wm, w2) =>
          let config_dict := make_config_dict args dir in
          let w3 := configure_wavemeter wm (property args) (resolution args) (medium args)
                      (averaging args) w2 in
          let w4 := set_stop_event Event_new w3 in
          mkProc w4
            (Some (mkLoopArgs wm config_dict (graph args) (debug args), Frame_init))
            (if graph args then Some (PlotWindow_init default_max_points) else None)
            (graph args) (bool_decide (is_Some wm)) M194 dir
      end
  end.

(** What can happen next once the measurement thread runs. *)
Inductive pevent :=
  | PThread
  | PMain
  | PClose
  | PCtrlC
  | PDeliver
  | PRedraw.

Definition thread_over (p : Proc) : bool :=
  match thread p with
  | Some (_, f) => finished f
  | None => true
  end.

Definition proc_step (env : Env) (p : Proc) (e : pevent) : Proc :=
  match e with
  | PThread =>
      match thread p with
      | Some (a, f) =>
          let s := step env a (world p) f in
          mkProc s.1 (Some (a, s.2)) (window p) (window_open p) (wm_open p) (main_at p)
                 (readout_dir p)
      | None => p
      end
  | PMain =>
      match main_at p with
      | M194 =>
          if (if bool_decide (is_Some (window p)) then negb (window_open p) else thread_over p)
          then mkProc (world p) (thread p) (window p) (window_open p) (wm_open p) Mreturned
                      (readout_dir p)
          else p
      | M206 =>
          if thread_over p
          then mkProc (print (nl +:+ "Measurement completed." +:+ nl +:+ "Data saved to: "
                              +:+ readout_dir p) (world p))
                      (thread p) (window p) (window_open p) false (Mexit 0) (readout_dir p)
          else p
      | _ => p
      end
  | PClose =>
      match window p with
      | Some _ => mkProc (closeEvent (world p)) (thread p) (window p) false (wm_open p)
                         (main_at p) (readout_dir p)
      | None => p
      end
  | PCtrlC =>
      match main_at p with
      | M194 =>
          let w1 := print (nl +:+ "Stopping measurement...")
                      (set_stop_event (Event_set (stop_event (world p))) (world p)) in
          match window p with
          | Some _ => mkProc (closeEvent w1) (thread p) (window p) false (wm_open p) M206
                             (readout_dir p)
          | None => mkProc w1 (thread p) (window p) (window_open p) (wm_open p) M206
                           (readout_dir p)
          end
      | _ => p
      end
  | PDeliver =>
      match window p, data_signal (world p) with
      | Some pw, (t, v) :: rest =>
          let w := world p in
          mkProc (mkWorld (stop_event w) (fs w) (stdout w) (clock_reads w) (random_draws w)
                          (queries w) (bus w) rest)
                 (thread p) (Some (add_data pw t v)) (window_open p) (wm_open p) (main_at p)
                 (readout_dir p)
      | _, _ => p
      end
  | PRedraw =>
      match window p with
      | Some pw => mkProc (world p) (thread p) (Some (update_plot pw)) (window_open p)
                          (wm_open p) (main_at p) (readout_dir p)
      | None => p
      end
  end.

Definition main (env : Env) (args : Args) (h : Host) (sched : list pevent) (w : World) : Proc :=
  fold_left (proc_step env) sched (main_start args h w).

(** The status the process ends with, once the main thread is gone and the
    measurement thread, which is not a daemon, is over. *)
Definition exit_status (p : Proc) : option Z :=
  match main_at p with
  | Mreturned => if thread_over p then Some 0%Z else None
  | Mexit code => Some code
  | Muncaught _ => if thread_over p then Some 1%Z else None
  | M194 | M206 => None
  end.

Definition World_init (fs0 : FileSystem) : World :=
  mkWorld Event_new fs0 [] 0 0 0 [] [].

(** ** Notions the statements use *)

Definition log_name : string := "wavemeter_readout.csv".

(** Two states of the shared world that differ at most by what was printed. *)
Definition same_but_stdout (w w' : World) : Prop :=
  stop_event w = stop_event w' /\ fs w = fs w' /\ clock_reads w = clock_reads w' /\
  random_draws w = random_draws w' /\ queries w = queries w' /\ bus w = bus w' /\
  data_signal w = data_signal w'.

(** Nothing lies in directory [d]. *)
Definition empty_dir (fs0 : FileSystem) (d : string) : Prop :=
  forall q, dirname q = d -> files fs0 !! q = None /\ q ∉ dirs fs0.


(** The loop has not opened its log: the file system is as it found it. *)
Definition untouched (w0 : World) (s : World * Frame) : Prop :=
  fs s.1 = fs w0 /\ csvfile s.2 = None.

(** Seconds since the loop read [t_start], at clock reading [k]. *)
Definition elapsed (env : Env) (k0 k : nat) : float :=
  (perf_counter env k - perf_counter env k0)%float.

(** The row logged for the sample of clock reading [kv.1] and value [kv.2]. *)
Definition row_of (env : Env) (k0 : nat) (kv : nat * float) : list cell :=
  [CFloat (elapsed env k0 kv.1); CFloat kv.2].

(** In synthetic mode a value comes from [random.uniform(500.0, 600.0)]. *)
Definition drawn (env : Env) (a : LoopArgs) (v : float) : Prop :=
  debug_mode a = true -> exists j, v = uniform 500 600 (random env j).

(** The lines of a tick at which the sample is taken and not yet written. *)
Definition in_tick (l : pc) : bool :=
  match l with
  | L110 | L116 | L119 => true
  | _ => false
  end.

(** The lines from which the header is in the log. *)
Definition logging (l : pc) : bool :=
  match l with
  | L95 | L96 | L98 | L100 => false
  | _ => true
  end.

(** The log is open, or was: [output_file] is set for good. *)
Definition opened (l : pc) : bool :=
  match l with
  | L95 | L96 | L98 => false
  | _ => true
  end.

(** What may be held back in the buffer: anything while the flush of line
    120 is the next statement or the loop is on its way out; otherwise
    nothing, or the header as long as no sample was written. *)
Definition pending_ok {A} (l : pc) (buf : list (list cell)) (smp : list A) : Prop :=
  match l with
  | L120 | L128 | Lexit _ => True
  | _ => buf = [] \/ (smp = [] /\ buf = [header])
  end.

Definition timed (env : Env) (k0 : nat) (s : World * Frame) : Prop :=
  t_start s.2 = perf_counter env k0 /\ (k0 < clock_reads s.1)%nat.

Definition sampled (env : Env) (a : LoopArgs) (k0 : nat) (s : World * Frame) : Prop :=
  in_tick (at_line s.2) = true ->
  current_time s.2 = elapsed env k0 (clock_reads s.1 - 1) /\
  (k0 + 2 <= clock_reads s.1)%nat /\
  (at_line s.2 <> L110 -> drawn env a (current_wavelength s.2)).

Definition bounded_by (k0 : nat) (s : World * Frame) (smp : list (nat * float)) : Prop :=
  Forall (fun kv : nat * float =>
            (k0 < kv.1)%nat /\
            (kv.1 + (if in_tick (at_line s.2) then 2 else 1) <= clock_reads s.1)%nat) smp.

(** The invariant of the loop, phase by phase: before the log is opened,
    after a failure to open it, with the log open and still empty, and
    with the header and the samples [smp] written. *)
Inductive Inv (env : Env) (a : LoopArgs) (w0 : World) : World * Frame -> Prop :=
  | Inv_start s :
      at_line s.2 = L95 -> csvfile s.2 = None -> fs s.1 = fs w0 ->
      clock_reads s.1 = clock_reads w0 ->
      Inv env a w0 s
  | Inv_pre s :
      at_line s.2 = L96 \/ at_line s.2 = L98 -> csvfile s.2 = None -> fs s.1 = fs w0 ->
      timed env (clock_reads w0) s ->
      Inv env a w0 s
  | Inv_dead s e :
      at_line s.2 = Lraised e -> csvfile s.2 = None -> fs s.1 = fs w0 ->
      Inv env a w0 s
  | Inv_empty s :
      (at_line s.2 = L100 /\ csvfile s.2 = Some []) \/
      (exists e, at_line s.2 = Lexit (Some e)) \/
      (exists e, at_line s.2 = Lraised e /\ csvfile s.2 = None) ->
      written s = [] ->
      timed env (clock_reads w0) s ->
      Inv env a w0 s
  | Inv_log s smp :
      logging (at_line s.2) = true ->
      written s = header :: (row_of env (clock_reads w0) <$> smp) ->
      StronglySorted lt (fst <$> smp) ->
      bounded_by (clock_reads w0) s smp ->
      Forall (fun kv : nat * float => drawn env a kv.2) smp ->
      pending_ok (at_line s.2) (buffered s) smp ->
      timed env (clock_reads w0) s ->
      sampled env a (clock_reads w0) s ->
      Inv env a w0 s.

(** With the stop event set: the clock readings, the rows and the
    statements the loop has left, from each line. *)
Definition reads_left (l : pc) : nat :=
  match l with
  | L95 | L108 => 1
  | _ => 0
  end.

Definition rows_left (l : pc) : nat :=
  match l with
  | L100 | L108 | L110 | L116 | L119 => 1
  | _ => 0
  end.

Definition steps_left (l : pc) : nat :=
  match l with
  | L95 => 8 | L96 => 7 | L98 => 6 | L100 => 5 | L101 => 4
  | L107 => 3
  | L108 => 10 | L110 => 9 | L116 => 8 | L119 => 7 | L120 => 6 | L123 => 5 | L126 => 4
  | L128 => 3
  | Lexit _ => 2
  | L132 => 1
  | Ldone | Lraised _ => 0
  end.

Definition is_step (x : action) : bool :=
  match x with
  | AStep => true
  | _ => false
  end.

Definition count_steps (sched : list action) : nat := length (filter is_step sched).

(** ** A laboratory, for the runs the statements are tried on *)

Definition lab_fs : FileSystem := mkFS {["/home/lab"]} ∅.

Definition lab_clock (n : nat) : float :=
  match n with
  | 0 => 10
  | 1 => 10.125
  | 2 => 10.25
  | _ => 10.5
  end%float.

Definition lab_reply : string := "+5.3225E+002".

Definition lab_float (s : string) : option float :=
  if String.eqb s lab_reply then Some 532.25%float else None.

Definition lab_env : Env :=
  mkEnv lab_clock (fun _ => 0.5%float) (fun _ => Reply lab_reply) lab_float.

(** The largest output of [random.random()]: 53 bits set. *)
Definition top_draw : float := 0x1.fffffffffffffp-1%float.

Definition top_env : Env :=
  mkEnv lab_clock (fun _ => top_draw) (fun _ => Reply lab_reply) lab_float.

(** An instrument that answers with an error message. *)
Definition err_env : Env :=
  mkEnv lab_clock (fun _ => 0.5%float) (fun _ => Reply "ERR") lab_float.

Definition host_down : Host := mkHost "/home/lab" "20250101_120000" ConnectFails.
Definition host_up : Host := mkHost "/home/lab" "20250101_120000" (Connected "HP,86120B").
Definition debug_args : Args := mkArgs false "WAVelength" ".001" "air" "OFF" true.
Definition graph_args : Args := mkArgs true "WAVelength" ".001" "air" "OFF" true.

Definition lab_dir : string := "/home/lab/readout/20250101_120000".

(** The world and the loop arguments [main] hands to the thread. *)
Definition lab_world : World := world (main_start debug_args host_up (World_init lab_fs)).
Definition lab_loop : LoopArgs :=
  mkLoopArgs None (make_config_dict debug_args lab_dir) false true.
Definition instr_loop : LoopArgs :=
  mkLoopArgs (Some INSTRUMENT_RESOURCE) (make_config_dict default_args lab_dir) false false.

Definition three_points : list (float * float) :=
  [(0.25, 532.25); (0.5, 532.5); (0.75, 532.75)]%float.

Definition instr_world : World := world (main_start default_args host_up (World_init lab_fs)).


(** ** The window in the GUI thread *)





(** ** More notions about the loop *)

(** The lines of the [while] loop, inside the [try] block. *)
Definition in_loop (l : pc) : bool :=
  match l with
  | L107 | L108 | L110 | L116 | L119 | L120 | L123 | L126 => true
  | _ => false
  end.

(** The lines at which no file can be open: before [open], and after the
    [with] block. *)
Definition outside_with (l : pc) : bool :=
  match l with
  | L95 | L96 | L98 | L132 | Ldone | Lraised _ => true
  | _ => false
  end.

(** The query the loop sends for property [p]. *)
Definition measure_query (p : string) : string := ":MEASure:" +:+ p +:+ "?".

(** ** More of the laboratory *)

(** Loop arguments with an empty configuration. *)
Definition bare_loop : LoopArgs := mkLoopArgs None ∅ false true.

(** An instrument that does not answer in time. *)
Definition mute_env : Env :=
  mkEnv lab_clock (fun _ => 0.5%float) (fun _ => Timeout) lab_float.

(** ** The pairs handed to the window *)

(** The row the loop writes for a pair. *)
Definition sample_row (tv : float * float) : list cell := [CFloat tv.1; CFloat tv.2].




(** ** More notions about [main] *)




(** The arguments the measurement thread was started with. *)
Definition thread_args (p : Proc) : option LoopArgs := fst <$> thread p.

(** What [main] and [configure_wavemeter] send before the loop starts. *)
Definition setup_commands (args : Args) : list string :=
  [ "*IDN?";
    ":CONFigure:" +:+ property args;
    ":DISPlay:RESolution " +:+ resolution args;
    ":SENSe:AVERage " +:+ averaging args;
    ":SENSe:MEDium " +:+ medium args ].

(** * Proofs *)

Local Open Scope Z_scope.

(** ** Binary64 rounding

    [SpecFloat] rounds by shifting the mantissa one bit at a time and
    keeping a round and a sticky bit.  The first lemmas relate that
    procedure to [rne_shift], rounding to nearest even by division. *)

Lemma iter_pos_nat {A} (f : A -> A) p : forall x, SpecFloat.iter_pos f p x = Nat.iter (Pos.to_nat p) f x.
Proof.
  induction p as [p IH|p IH|]; intros x; cbn [SpecFloat.iter_pos].
  - rewrite !IH. rewrite Pos2Nat.inj_xI. 
    replace (S (2 * Pos.to_nat p))%nat with (Pos.to_nat p + (Pos.to_nat p + 1))%nat by lia.
    rewrite !Nat.iter_add. reflexivity.
  - rewrite !IH. rewrite Pos2Nat.inj_xO.
    replace (2 * Pos.to_nat p)%nat with (Pos.to_nat p + Pos.to_nat p)%nat by lia.
    rewrite Nat.iter_add. reflexivity.
  - reflexivity.
Qed.

Lemma shr_1_nonneg m r s :
  0 <= m -> shr_1 (Build_shr_record m r s) = Build_shr_record (m / 2) (Z.odd m) (r || s).
Proof.
  intros Hm. rewrite <- Z.div2_div.
  destruct m as [|p|p]; [reflexivity| |lia].
  destruct p; reflexivity.
Qed.

Lemma mod_pow2_succ m j :
  0 <= j -> m mod 2 ^ (j + 1) = m mod 2 ^ j + 2 ^ j * Z.b2z (Z.testbit m j).
Proof.
  intros Hj. rewrite Z.pow_add_r by lia. change (2 ^ 1) with 2.
  rewrite Z.rem_mul_r by lia.
  rewrite Z.testbit_spec' by lia. reflexivity.
Qed.

Lemma iter_shr_1 m k :
  0 <= m -> Nat.iter k shr_1 (Build_shr_record m false false) = shr_state m k.
Proof.
  intros Hm. induction k as [|k IH]; [reflexivity|].
  simpl Nat.iter. rewrite IH. destruct k as [|j].
  - cbv [shr_state]. rewrite shr_1_nonneg by lia.
    change (Z.of_nat 1) with 1. change (Z.of_nat 0) with 0.
    change (2 ^ 1) with 2. change (2 ^ 0) with 1.
    rewrite Z.mod_1_r, Z.bit0_odd. reflexivity.
  - unfold shr_state. rewrite shr_1_nonneg by (apply Z.div_pos; lia).
    f_equal.
    + rewrite Z.div_div by lia. f_equal.
      rewrite (Nat2Z.inj_succ (S j)). rewrite Z.pow_succ_r by lia. lia.
    + rewrite Z.testbit_odd, Z.shiftr_div_pow2 by lia. reflexivity.
    + rewrite (Nat2Z.inj_succ j). unfold Z.succ.
      rewrite (mod_pow2_succ m (Z.of_nat j)) by lia.
      pose proof (Z.mod_pos_bound m (2 ^ Z.of_nat j) ltac:(lia)).
      assert (0 < 2 ^ Z.of_nat j) by lia.
      destruct (Z.testbit m (Z.of_nat j)); simpl Z.b2z.
      * destruct (Z.eqb_spec (m mod 2 ^ Z.of_nat j + 2 ^ Z.of_nat j * 1) 0); [lia|reflexivity].
      * rewrite Z.mul_0_r, Z.add_0_r. reflexivity.
Qed.

(** Shifting [p] bits out with [shr] and rounding the result is
    [rne_shift]. *)
Lemma shr_round m p e :
  0 <= m ->
  let mrs := fst (shr (Build_shr_record m false false) e (Zpos p)) in
  round_nearest_even (shr_m mrs) (loc_of_shr_record mrs) = rne_shift m (Zpos p).
Proof.
  intros Hm. simpl. rewrite iter_pos_nat, iter_shr_1 by assumption.
  destruct (Pos2Nat.is_succ p) as [j Hj]. rewrite Hj.
  assert (Hp : Zpos p = Z.of_nat j + 1) by lia.
  unfold shr_state, rne_shift. rewrite <- Hj.
  rewrite positive_nat_Z. 
  destruct (Z.leb_spec (Zpos p) 0); [lia|].
  rewrite Hp. replace (Z.of_nat j + 1 - 1) with (Z.of_nat j) by lia.
  rewrite (mod_pow2_succ m (Z.of_nat j)) by lia.
  pose proof (Z.mod_pos_bound m (2 ^ Z.of_nat j) ltac:(lia)).
  set (q := m / 2 ^ (Z.of_nat j + 1)). set (lo := m mod 2 ^ Z.of_nat j) in *.
  set (h := 2 ^ Z.of_nat j) in *.
  destruct (Z.testbit m (Z.of_nat j)); simpl Z.b2z;
    destruct (Z.eqb_spec lo 0) as [E0|E0]; simpl.
  - destruct (Z.ltb_spec (lo + h * 1) h); [lia|].
    destruct (Z.ltb_spec h (lo + h * 1)); [lia|]. reflexivity.
  - destruct (Z.ltb_spec (lo + h * 1) h); [lia|].
    destruct (Z.ltb_spec h (lo + h * 1)); [|lia]. reflexivity.
  - destruct (Z.ltb_spec (lo + h * 0) h); [|lia]. reflexivity.
  - destruct (Z.ltb_spec (lo + h * 0) h); [|lia]. reflexivity.
Qed.

(** *** Digits, exponents and the shape of a rounded value *)

(** The exponent binary64 gives a value of [x] digits. *)
Lemma fexp_eq x : fexp prec emax x = Z.max (x - 53) (-1074).
Proof. reflexivity. Qed.

Lemma digits2_log2 p : Zpos (digits2_pos p) = digits (Zpos p).
Proof.
  unfold digits.
  assert (H : forall q, digits2_pos q = Pos.size q).
  { induction q; simpl; congruence. }
  rewrite H. destruct p; simpl; lia.
Qed.

Lemma Zdigits2_log2 q : 0 < q -> Zdigits2 q = digits q.
Proof. destruct q; try lia. intros _. apply digits2_log2. Qed.

Lemma digits_bounds V : 0 < V -> 2 ^ (digits V - 1) <= V < 2 ^ digits V.
Proof.
  intros HV. unfold digits. replace (Z.log2 V + 1 - 1) with (Z.log2 V) by lia.
  pose proof (Z.log2_spec V HV). unfold Z.succ in *. lia.
Qed.

Lemma digits_pos V : 0 < V -> 0 < digits V.
Proof. intros. unfold digits. pose proof (Z.log2_nonneg V). lia. Qed.

Lemma digits_le_iff V b : 0 < V -> (digits V <= b <-> V < 2 ^ b).
Proof.
  intros HV. unfold digits. rewrite (Z.log2_lt_pow2 V b HV). lia.
Qed.

Lemma digits_mono V W : 0 < V -> V <= W -> digits V <= digits W.
Proof. intros. unfold digits. pose proof (Z.log2_le_mono V W). lia. Qed.

Lemma digits_mul_pow2 V j : 0 < V -> 0 <= j -> digits (V * 2 ^ j) = digits V + j.
Proof. intros. unfold digits. rewrite Z.log2_mul_pow2 by lia. lia. Qed.

Lemma rne_shift_0 m : rne_shift m 0 = m.
Proof. reflexivity. Qed.

Lemma rne_shift_bounds m n :
  0 <= m -> 0 <= n -> m / 2 ^ n <= rne_shift m n <= m / 2 ^ n + 1.
Proof.
  intros Hm Hn. unfold rne_shift.
  destruct (Z.leb_spec n 0).
  - replace n with 0 by lia. rewrite Z.pow_0_r, Z.div_1_r. lia.
  - cbv zeta. destruct (_ <? _); [lia|]. destruct (_ <? _); [lia|].
    destruct (Z.even _); lia.
Qed.

Lemma rne_shift_upper m n d :
  0 <= m -> 0 <= n -> m < 2 ^ d -> n <= d -> rne_shift m n <= 2 ^ (d - n).
Proof.
  intros Hm Hn Hd Hnd.
  pose proof (rne_shift_bounds m n Hm Hn) as [_ Hu].
  assert (m / 2 ^ n < 2 ^ (d - n)).
  { apply Z.div_lt_upper_bound; [lia|]. rewrite <- Z.pow_add_r by lia.
    replace (n + (d - n)) with d by lia. exact Hd. }
  lia.
Qed.

Lemma rne_shift_small m n :
  0 <= m -> 0 < n -> m < 2 ^ (n - 1) -> rne_shift m n = 0.
Proof.
  intros Hm Hn Hlt. unfold rne_shift.
  destruct (Z.leb_spec n 0); [lia|]. cbv zeta.
  assert (2 ^ (n - 1) < 2 ^ n) by (apply Z.pow_lt_mono_r; lia).
  rewrite Z.mod_small by lia. rewrite Z.div_small by lia.
  destruct (Z.ltb_spec m (2 ^ (n - 1))); [reflexivity|lia].
Qed.

Lemma rne_shift_le_pow m n b :
  0 <= m -> 0 <= n -> 0 <= b -> m < 2 ^ (n + b) -> rne_shift m n <= 2 ^ b.
Proof.
  intros Hm Hn Hb Hlt.
  replace b with ((n + b) - n) by lia. apply rne_shift_upper; lia.
Qed.

Lemma rexp_ge V c : -1074 <= rexp V c /\ digits V + c - 53 <= rexp V c.
Proof. unfold rexp. rewrite fexp_eq. lia. Qed.

Lemma round_q_le V c :
  0 < V -> c <= rexp V c -> 0 <= rne_shift V (rexp V c - c) <= 2 ^ 53.
Proof.
  intros HV Hc. pose proof (rexp_ge V c) as [_ H2].
  pose proof (digits_bounds V HV) as [_ Hd].
  pose proof (digits_pos V HV).
  split.
  - pose proof (rne_shift_bounds V (rexp V c - c) ltac:(lia) ltac:(lia)).
    pose proof (Z.div_pos V (2 ^ (rexp V c - c)) ltac:(lia) ltac:(lia)). lia.
  - apply rne_shift_le_pow; try lia.
    eapply Z.lt_le_trans; [exact Hd|]. apply Z.pow_le_mono_r; lia.
Qed.

(** [binary_round_aux] on a positive mantissa is [round_pos]. *)
Lemma bra_round_pos s m e :
  e <= rexp (Zpos m) e ->
  binary_round_aux prec emax s (Zpos m) e loc_Exact = round_pos s (Zpos m) e.
Proof.
  intros He. pose proof (round_q_le (Zpos m) e ltac:(lia) He) as Hq.
  pose proof (rexp_ge (Zpos m) e) as [Hmin Hdig].
  unfold binary_round_aux, round_pos, mk_float, rq, rE. cbv zeta.
  unfold shr_fexp at 1. rewrite (Zdigits2_log2 (Zpos m)) by lia. fold (rexp (Zpos m) e).
  set (E := rexp (Zpos m) e) in *.
  assert (Hstep1 :
    let '(mrs, e') := shr (shr_record_of_loc (Zpos m) loc_Exact) e (E - e) in
    round_nearest_even (shr_m mrs) (loc_of_shr_record mrs) = rne_shift (Zpos m) (E - e)
    /\ e' = E).
  { destruct (E - e) as [|p|p] eqn:Hn; try lia.
    - simpl. split; [reflexivity|lia].
    - pose proof (shr_round (Zpos m) p e ltac:(lia)) as Hr. cbv zeta in Hr.
      simpl shr_record_of_loc.
      destruct (shr _ e (Zpos p)) as [mrs e'] eqn:Hs. simpl in Hr.
      split; [exact Hr|]. unfold shr in Hs. inversion Hs. lia. }
  destruct (shr _ e (E - e)) as [mrs e'].
  destruct Hstep1 as [Hr ->]. rewrite Hr. clear Hr mrs.
  set (q := rne_shift (Zpos m) (E - e)) in *.
  unfold shr_fexp. simpl shr_record_of_loc.
  destruct (Z.eqb_spec q (2 ^ prec)) as [Heq|Hne].
  - rewrite Heq. change (Zdigits2 (2 ^ prec)) with 54. rewrite fexp_eq.
    replace (Z.max (54 + E - 53) (-1074) - E) with 1 by lia.
    simpl. replace (E + 1 <=? 971) with (E + 1 <=? emax - prec) by reflexivity.
    reflexivity.
  - assert (Hlt : q < 2 ^ 53) by (change (2 ^ prec) with (2 ^ 53) in Hne; lia).
    destruct (Z.eq_dec q 0) as [Hz|Hnz].
    + rewrite Hz. simpl Zdigits2. rewrite fexp_eq.
      destruct (Z.max (0 + E - 53) (-1074) - E) eqn:Hn; try lia; reflexivity.
    + assert (Hqpos : 0 < q) by lia.
      rewrite Zdigits2_log2 by lia. rewrite fexp_eq.
      assert (digits q <= 53) by (apply digits_le_iff; lia).
      destruct (Z.max (digits q + E - 53) (-1074) - E) eqn:Hn; try lia.
      * simpl. destruct q; try lia. reflexivity.
      * simpl. destruct q; try lia. reflexivity.
Qed.

(** *** [binary_round] is [round_pos] *)

Lemma pos_iter_xO m d : Zpos (Pos.iter xO m d) = Zpos m * 2 ^ Zpos d.
Proof.
  rewrite <- Z.shiftl_mul_pow2 by lia. simpl Z.shiftl.
  apply (Pos.iter_swap_gen _ _ Zpos xO (Z.mul 2)). reflexivity.
Qed.

Lemma shl_align_spec m e e' :
  snd (shl_align m e e') = Z.min e e' /\
  Zpos (fst (shl_align m e e')) = Zpos m * 2 ^ (e - Z.min e e').
Proof.
  unfold shl_align. destruct (e' - e) as [|p|p] eqn:Hd; simpl fst; simpl snd.
  - replace (Z.min e e') with e by lia. rewrite Z.sub_diag. split; lia.
  - replace (Z.min e e') with e by lia. rewrite Z.sub_diag. split; lia.
  - replace (Z.min e e') with e' by lia. split; [reflexivity|].
    rewrite pos_iter_xO. f_equal. f_equal. lia.
Qed.

Lemma rne_shift_scale V n j :
  0 <= V -> 0 <= n -> 0 <= j -> rne_shift (V * 2 ^ j) (n + j) = rne_shift V n.
Proof.
  intros HV Hn Hj. unfold rne_shift.
  assert (Hj2 : 0 < 2 ^ j) by lia.
  destruct (Z.leb_spec (n + j) 0) as [H0|H0].
  - assert (n = 0) by lia. assert (j = 0) by lia. subst. simpl. lia.
  - destruct (Z.leb_spec n 0) as [H1|H1].
    + assert (n = 0) by lia. subst n. cbv zeta. rewrite Z.add_0_l.
      rewrite Z.div_mul, Z.mod_mul by lia.
      assert (0 < 2 ^ (j - 1)) by (apply Z.pow_pos_nonneg; lia).
      destruct (Z.ltb_spec 0 (2 ^ (j - 1))); [reflexivity|lia].
    + cbv zeta. rewrite (Z.pow_add_r 2 n j) by lia.
      rewrite Z.div_mul_cancel_r by lia.
      rewrite Z.mul_mod_distr_r by lia.
      replace (n + j - 1) with ((n - 1) + j) by lia.
      rewrite (Z.pow_add_r 2 (n - 1) j) by lia.
      set (r := V mod 2 ^ n). set (h := 2 ^ (n - 1)).
      destruct (Z.ltb_spec r h), (Z.ltb_spec (r * 2 ^ j) (h * 2 ^ j)); try nia; try reflexivity.
      destruct (Z.ltb_spec h r), (Z.ltb_spec (h * 2 ^ j) (r * 2 ^ j)); try nia; reflexivity.
Qed.

Lemma rexp_scale V c j : 0 < V -> 0 <= j -> rexp (V * 2 ^ j) (c - j) = rexp V c.
Proof.
  intros. unfold rexp. rewrite digits_mul_pow2 by lia. f_equal. lia.
Qed.

Lemma round_pos_scale s V c j :
  0 < V -> 0 <= j -> c <= rexp V c -> round_pos s (V * 2 ^ j) (c - j) = round_pos s V c.
Proof.
  intros HV Hj Hc. unfold round_pos, rq, rE. rewrite rexp_scale by lia.
  replace (rexp V c - (c - j)) with ((rexp V c - c) + j) by lia.
  rewrite rne_shift_scale by lia. reflexivity.
Qed.

(** [binary_round] on a positive mantissa is [round_pos] of the same
    value at a common scale [c]. *)
Lemma binary_round_round_pos s m e c :
  c <= e -> c <= -1074 ->
  binary_round prec emax s m e = round_pos s (Zpos m * 2 ^ (e - c)) c.
Proof.
  intros Hce Hc. unfold binary_round.
  pose proof (shl_align_spec m e (fexp prec emax (Zpos (digits2_pos m) + e))) as [H1 H2].
  destruct (shl_align _ _ _) as [mz ez]. cbn [fst snd] in H1, H2.
  rewrite digits2_log2 in H1, H2. fold (rexp (Zpos m) e) in H1, H2.
  rewrite <- H1 in H2.
  pose proof (rexp_ge (Zpos m) e) as [Hmin _].
  assert (Hr : rexp (Zpos mz) ez = rexp (Zpos m) e).
  { rewrite H2. replace (rexp (Zpos m * 2 ^ (e - ez)) ez)
      with (rexp (Zpos m * 2 ^ (e - ez)) (e - (e - ez))) by (f_equal; lia).
    apply rexp_scale; lia. }
  rewrite bra_round_pos by lia.
  rewrite <- (round_pos_scale s (Zpos mz) ez (ez - c)) by lia.
  f_equal; [|lia]. rewrite H2, <- Z.mul_assoc, <- Z.pow_add_r by lia.
  f_equal. f_equal. lia.
Qed.

(** *** Rounding is monotone *)

Lemma round_pos_mk s V c : round_pos s V c = mk_float s (rq V c) (rE V c).
Proof. reflexivity. Qed.

Lemma rne_shift_mono n V W :
  0 <= V <= W -> 0 <= n -> rne_shift V n <= rne_shift W n.
Proof.
  intros HVW Hn.
  pose proof (rne_shift_bounds V n ltac:(lia) Hn) as HV.
  pose proof (rne_shift_bounds W n ltac:(lia) Hn) as HW.
  assert (Hq : V / 2 ^ n <= W / 2 ^ n) by (apply Z.div_le_mono; lia).
  destruct (Z.eq_dec (V / 2 ^ n) (W / 2 ^ n)) as [Heq|Hne]; [|lia].
  clear HV HW. unfold rne_shift. destruct (Z.leb_spec n 0); [lia|]. cbv zeta.
  assert (Hr : V mod 2 ^ n <= W mod 2 ^ n).
  { rewrite !Z.mod_eq by lia. rewrite Heq. lia. }
  rewrite Heq.
  set (r1 := V mod 2 ^ n) in *. set (r2 := W mod 2 ^ n) in *. set (h := 2 ^ (n - 1)).
  destruct (Z.ltb_spec r1 h), (Z.ltb_spec r2 h), (Z.ltb_spec h r1), (Z.ltb_spec h r2);
    try lia; destruct (Z.even (W / 2 ^ n)); lia.
Qed.

Lemma rq_normal V c :
  0 < V -> c <= -1074 -> -1074 < rexp V c ->
  2 ^ 52 <= rne_shift V (rexp V c - c).
Proof.
  intros HV Hc Hn. unfold rexp in *. rewrite fexp_eq in *.
  assert (HE : Z.max (digits V + c - 53) (-1074) = digits V + c - 53) by lia.
  rewrite HE in *.
  pose proof (digits_bounds V HV) as [Hd _].
  pose proof (rne_shift_bounds V (digits V + c - 53 - c) ltac:(lia) ltac:(lia)) as [Hl _].
  eapply Z.le_trans; [|exact Hl].
  apply Z.div_le_lower_bound; [lia|].
  rewrite <- Z.pow_add_r by lia.
  replace (digits V + c - 53 - c + 52) with (digits V - 1) by lia. exact Hd.
Qed.

Lemma mk_float_le q1 E1 q2 E2 :
  0 <= q2 -> lex_le q1 E1 q2 E2 -> SFleb (mk_float false q1 E1) (mk_float false q2 E2) = true.
Proof.
  intros H2 [H|(H1 & H2' & H)].
  - subst q1. simpl. unfold mk_float. destruct q2 as [|p|p]; [reflexivity| |lia].
    destruct (E2 <=? emax - prec); reflexivity.
  - destruct q1 as [|p1|p1]; try lia. destruct q2 as [|p2|p2]; try lia.
    unfold mk_float.
    destruct (Z.leb_spec E1 (emax - prec)), (Z.leb_spec E2 (emax - prec)); try reflexivity.
    + unfold SFleb, SFcompare. destruct H as [H|[-> H]].
      * rewrite (proj2 (Z.compare_lt_iff E1 E2) H). reflexivity.
      * rewrite Z.compare_refl. change (Pos.compare_cont Eq p1 p2) with (Pos.compare p1 p2).
        destruct (Pos.compare_spec p1 p2); try reflexivity. lia.
    + lia.
Qed.

Lemma round_lex_mono V W c :
  0 < V -> V <= W -> c <= -1074 -> lex_le (rq V c) (rE V c) (rq W c) (rE W c).
Proof.
  intros HV HVW Hc.
  pose proof (rexp_ge V c) as [HminV HdV]. pose proof (rexp_ge W c) as [HminW HdW].
  pose proof (round_q_le V c HV ltac:(lia)) as HqV.
  pose proof (round_q_le W c ltac:(lia) ltac:(lia)) as HqW.
  pose proof (digits_mono V W HV HVW) as Hdm.
  assert (HE : rexp V c <= rexp W c) by (unfold rexp; rewrite !fexp_eq; lia).
  unfold lex_le, rq, rE. cbv zeta. change (2 ^ prec) with (2 ^ 53). change (2 ^ (prec - 1)) with (2 ^ 52).
  set (qV := rne_shift V (rexp V c - c)) in *.
  set (qW := rne_shift W (rexp W c - c)) in *.
  destruct (Z.eq_dec (rexp V c) (rexp W c)) as [Heq|Hne].
  - assert (Hqq : qV <= qW).
    { unfold qV, qW. rewrite Heq. apply rne_shift_mono; lia. }
    destruct (Z.eqb_spec qV (2 ^ 53)), (Z.eqb_spec qW (2 ^ 53)); lia.
  - assert (Hlt : rexp V c < rexp W c) by lia.
    pose proof (rq_normal W c ltac:(lia) Hc ltac:(lia)) as HnW. fold qW in HnW.
    destruct (Z.eqb_spec qV (2 ^ 53)), (Z.eqb_spec qW (2 ^ 53)); lia.
Qed.

(** Rounding to nearest even keeps the order of the values rounded. *)
Theorem round_pos_mono V W c :
  0 < V -> V <= W -> c <= -1074 ->
  SFleb (round_pos false V c) (round_pos false W c) = true.
Proof.
  intros HV HVW Hc. rewrite !round_pos_mk. apply mk_float_le.
  - pose proof (round_q_le W c ltac:(lia) ltac:(pose proof (rexp_ge W c); lia)).
    unfold rq. cbv zeta. destruct (_ =? _); [cbv; congruence|lia].
  - apply round_lex_mono; assumption.
Qed.

(** *** The value of a finite float, and comparison through it *)

Lemma valid_finite_bounds s m e :
  valid_binary (S754_finite s m e) = true ->
  -1074 <= e <= 971 /\ digits (Zpos m) <= 53 /\ (e = -1074 \/ digits (Zpos m) = 53).
Proof.
  unfold SpecFloat.valid_binary, bounded, canonical_mantissa.
  rewrite digits2_log2, fexp_eq. intros H.
  apply andb_true_iff in H as [H1 H2].
  apply Z.eqb_eq in H1. apply Z.leb_le in H2. change (emax - prec) with 971 in H2. lia.
Qed.

Lemma valid_mant_bounds s m e :
  valid_binary (S754_finite s m e) = true ->
  Zpos m < 2 ^ 53 /\ (-1074 < e -> 2 ^ 52 <= Zpos m).
Proof.
  intros H. apply valid_finite_bounds in H as (He & Hd & Hn).
  split.
  - apply digits_le_iff; lia.
  - intros Hlt. destruct Hn as [Hn|Hn]; [lia|].
    pose proof (digits_bounds (Zpos m) ltac:(lia)) as [Hl _].
    rewrite Hn in Hl. exact Hl.
Qed.

Lemma pos_val_lt s1 m1 e1 s2 m2 e2 c :
  valid_binary (S754_finite s1 m1 e1) = true ->
  valid_binary (S754_finite s2 m2 e2) = true ->
  c <= -1074 -> e1 < e2 ->
  Zpos m1 * 2 ^ (e1 - c) < Zpos m2 * 2 ^ (e2 - c).
Proof.
  intros V1 V2 Hc Hlt.
  pose proof (valid_finite_bounds _ _ _ V1) as (He1 & _).
  pose proof (valid_mant_bounds _ _ _ V1) as [Hu _].
  pose proof (valid_mant_bounds _ _ _ V2) as [_ Hl]. specialize (Hl ltac:(lia)).
  assert (H1 : Zpos m1 * 2 ^ (e1 - c) < 2 ^ 53 * 2 ^ (e1 - c)).
  { apply Z.mul_lt_mono_pos_r; [apply Z.pow_pos_nonneg; lia|exact Hu]. }
  assert (H2 : 2 ^ 52 * 2 ^ (e2 - c) <= Zpos m2 * 2 ^ (e2 - c)).
  { apply Z.mul_le_mono_nonneg_r; [apply Z.pow_nonneg; lia|exact Hl]. }
  assert (H3 : 2 ^ 53 * 2 ^ (e1 - c) <= 2 ^ 52 * 2 ^ (e2 - c)).
  { rewrite <- !Z.pow_add_r by lia. apply Z.pow_le_mono_r; lia. }
  lia.
Qed.

(** Comparing two finite valid floats is comparing their values at a
    common scale. *)
Lemma SFcompare_sval x y c :
  valid_binary x = true -> valid_binary y = true ->
  sf_finite x = true -> sf_finite y = true -> c <= -1074 ->
  SFcompare x y = Some (sval c x ?= sval c y).
Proof.
  intros Vx Vy Fx Fy Hc.
  destruct x as [sx| | |sx mx ex], y as [sy| | |sy my ey]; try discriminate; cbn [sval].
  - reflexivity.
  - pose proof (valid_finite_bounds _ _ _ Vy) as (He & _).
    assert (0 < Zpos my * 2 ^ (ey - c)) by (apply Z.mul_pos_pos; [lia|apply Z.pow_pos_nonneg; lia]).
    unfold SFcompare. destruct sy; cbn [cond_Zopp]; f_equal; symmetry.
    + apply Z.compare_gt_iff. lia.
    + apply Z.compare_lt_iff. lia.
  - pose proof (valid_finite_bounds _ _ _ Vx) as (He & _).
    assert (0 < Zpos mx * 2 ^ (ex - c)) by (apply Z.mul_pos_pos; [lia|apply Z.pow_pos_nonneg; lia]).
    unfold SFcompare. destruct sx; cbn [cond_Zopp]; f_equal; symmetry.
    + apply Z.compare_lt_iff. lia.
    + apply Z.compare_gt_iff. lia.
  - pose proof (valid_finite_bounds _ _ _ Vx) as (Hex & _).
    pose proof (valid_finite_bounds _ _ _ Vy) as (Hey & _).
    assert (Hx : 0 < Zpos mx * 2 ^ (ex - c)) by (apply Z.mul_pos_pos; [lia|apply Z.pow_pos_nonneg; lia]).
    assert (Hy : 0 < Zpos my * 2 ^ (ey - c)) by (apply Z.mul_pos_pos; [lia|apply Z.pow_pos_nonneg; lia]).
    assert (Hcmp : (Zpos mx * 2 ^ (ex - c) ?= Zpos my * 2 ^ (ey - c)) =
                   match ex ?= ey with Lt => Lt | Gt => Gt | Eq => Pos.compare_cont Eq mx my end).
    { destruct (Z.compare_spec ex ey) as [Heq|Hlt|Hgt].
      - subst ey. change (Pos.compare_cont Eq mx my) with (Zpos mx ?= Zpos my).
        assert (0 < 2 ^ (ex - c)) by (apply Z.pow_pos_nonneg; lia).
        destruct (Z.compare_spec (Zpos mx) (Zpos my)) as [E|L|G].
        + rewrite E. apply Z.compare_refl.
        + apply Z.compare_lt_iff. nia.
        + apply Z.compare_gt_iff. nia.
      - apply Z.compare_lt_iff. eapply pos_val_lt; eauto.
      - apply Z.compare_gt_iff. eapply pos_val_lt; eauto. }
    unfold SFcompare. destruct sx, sy; unfold cond_Zopp.
    + rewrite Z.compare_opp. rewrite (Z.compare_antisym (Zpos mx * _)). rewrite Hcmp.
      destruct (ex ?= ey); reflexivity.
    + f_equal. symmetry. apply Z.compare_lt_iff. lia.
    + f_equal. symmetry. apply Z.compare_gt_iff. lia.
    + rewrite Hcmp. reflexivity.
Qed.

Lemma SFleb_sval x y c :
  valid_binary x = true -> valid_binary y = true ->
  sf_finite x = true -> sf_finite y = true -> c <= -1074 ->
  SFleb x y = true -> sval c x <= sval c y.
Proof.
  intros Vx Vy Fx Fy Hc. unfold SFleb. rewrite (SFcompare_sval x y c) by assumption.
  destruct (Z.compare_spec (sval c x) (sval c y)); intros; first [lia | discriminate].
Qed.

Lemma SFltb_sval x y c :
  valid_binary x = true -> valid_binary y = true ->
  sf_finite x = true -> sf_finite y = true -> c <= -1074 ->
  SFltb x y = true -> sval c x < sval c y.
Proof.
  intros Vx Vy Fx Fy Hc. unfold SFltb. rewrite (SFcompare_sval x y c) by assumption.
  destruct (Z.compare_spec (sval c x) (sval c y)); intros; first [lia | discriminate].
Qed.

(** *** Subtraction, addition and multiplication of positive values *)

Lemma valid_fixed m e c :
  valid_binary (S754_finite false m e) = true -> c <= -1074 ->
  S754_finite false m e = round_pos false (Zpos m * 2 ^ (e - c)) c.
Proof.
  intros V Hc. pose proof (valid_finite_bounds _ _ _ V) as (He & Hd & _).
  pose proof (valid_mant_bounds _ _ _ V) as [Hu _].
  assert (Hr : rexp (Zpos m) e = e).
  { unfold SpecFloat.valid_binary, bounded, canonical_mantissa in V.
    apply andb_true_iff in V as [V _]. apply Z.eqb_eq in V.
    rewrite digits2_log2 in V. exact V. }
  replace c with (e - (e - c)) at 2 by lia.
  rewrite round_pos_scale by lia.
  unfold round_pos, mk_float, rq, rE. cbv zeta. rewrite Hr, Z.sub_diag, rne_shift_0.
  destruct (Z.eqb_spec (Zpos m) (2 ^ prec)) as [Heq|_].
  - change (2 ^ prec) with (2 ^ 53) in Heq. lia.
  - destruct (Z.leb_spec e (emax - prec)); [reflexivity|]. change (emax - prec) with 971 in *. lia.
Qed.

Lemma sval_pos_sign s m e c :
  -1074 <= e -> c <= -1074 -> 0 <= sval c (S754_finite s m e) -> s = false.
Proof.
  intros He Hc. cbn [sval].
  assert (0 < Zpos m * 2 ^ (e - c)) by (apply Z.mul_pos_pos; [lia|apply Z.pow_pos_nonneg; lia]).
  destruct s; cbn [cond_Zopp]; [lia|reflexivity].
Qed.

Lemma shl_align_min m e e' :
  e' <= e -> Zpos (fst (shl_align m e e')) = Zpos m * 2 ^ (e - e').
Proof.
  intros H. pose proof (shl_align_spec m e e') as [_ H2].
  rewrite H2. f_equal. f_equal. lia.
Qed.

Lemma cond_Zopp_mul s a b : cond_Zopp s a * b = cond_Zopp s (a * b).
Proof. destruct s; cbn [cond_Zopp]; lia. Qed.

Lemma sval_rescale s m e ez c :
  ez <= e -> c <= ez ->
  cond_Zopp s (Zpos m * 2 ^ (e - ez)) * 2 ^ (ez - c) = sval c (S754_finite s m e).
Proof.
  intros. cbn [sval]. rewrite cond_Zopp_mul. f_equal.
  rewrite <- Z.mul_assoc, <- Z.pow_add_r by lia. f_equal. f_equal. lia.
Qed.

Lemma binary_normalize_pos D ez c :
  c <= ez -> c <= -1074 -> 0 < D ->
  binary_normalize prec emax D ez false = round_pos false (D * 2 ^ (ez - c)) c.
Proof.
  intros H1 H2 HD. destruct D as [|p|p]; try lia.
  simpl binary_normalize. apply binary_round_round_pos; assumption.
Qed.

(** The difference of two finite floats [y <= x] is a zero or the
    rounding of the exact difference. *)
Lemma SFsub_nonneg x y c :
  valid_binary x = true -> valid_binary y = true ->
  sf_finite x = true -> sf_finite y = true -> c <= -1074 ->
  0 <= sval c x - sval c y ->
  (sval c x - sval c y = 0 /\ exists s, SF64sub x y = S754_zero s) \/
  (0 < sval c x - sval c y /\ SF64sub x y = round_pos false (sval c x - sval c y) c).
Proof.
  intros Vx Vy Fx Fy Hc HD.
  destruct x as [sx| | |sx mx ex], y as [sy| | |sy my ey]; try discriminate.
  - left. split; [reflexivity|]. unfold SF64sub, SFsub. destruct sx, sy; eauto.
  - right. pose proof (valid_finite_bounds _ _ _ Vy) as (He & _).
    change (sval c (S754_zero sx)) with 0 in *.
    assert (sy = true).
    { destruct sy; [reflexivity|]. cbn [sval cond_Zopp] in HD.
      assert (0 < Zpos my * 2 ^ (ey - c)) by (apply Z.mul_pos_pos; [lia|apply Z.pow_pos_nonneg; lia]). lia. }
    subst sy. cbn [sval cond_Zopp].
    assert (0 < Zpos my * 2 ^ (ey - c)) by (apply Z.mul_pos_pos; [lia|apply Z.pow_pos_nonneg; lia]).
    split; [lia|]. unfold SF64sub, SFsub. cbn [negb].
    replace (0 - - (Zpos my * 2 ^ (ey - c))) with (Zpos my * 2 ^ (ey - c)) by lia.
    apply valid_fixed; assumption.
  - right. pose proof (valid_finite_bounds _ _ _ Vx) as (He & _).
    change (sval c (S754_zero sy)) with 0 in *. rewrite Z.sub_0_r in *.
    pose proof (sval_pos_sign sx mx ex c ltac:(lia) Hc HD). subst sx. cbn [sval cond_Zopp].
    assert (0 < Zpos mx * 2 ^ (ex - c)) by (apply Z.mul_pos_pos; [lia|apply Z.pow_pos_nonneg; lia]).
    split; [lia|]. unfold SF64sub, SFsub. apply valid_fixed; assumption.
  - pose proof (valid_finite_bounds _ _ _ Vx) as (Hex & _).
    pose proof (valid_finite_bounds _ _ _ Vy) as (Hey & _).
    unfold SF64sub, SFsub. cbv zeta.
    rewrite !shl_align_min by lia.
    set (ez := Z.min ex ey).
    set (D := cond_Zopp sx (Zpos mx * 2 ^ (ex - ez)) - cond_Zopp sy (Zpos my * 2 ^ (ey - ez))).
    assert (HDs : D * 2 ^ (ez - c) = sval c (S754_finite sx mx ex) - sval c (S754_finite sy my ey)).
    { unfold D. rewrite Z.mul_sub_distr_r. rewrite !sval_rescale by lia. reflexivity. }
    assert (Hp : 0 < 2 ^ (ez - c)) by (apply Z.pow_pos_nonneg; lia).
    destruct (Z.eq_dec D 0) as [Hz|Hnz].
    + left. rewrite <- HDs, Hz. split; [lia|]. exists false. reflexivity.
    + right. rewrite <- HDs in *. assert (0 < D) by nia. split; [nia|].
      apply binary_normalize_pos; lia.
Qed.

(** The sum of two finite floats, neither negative and not both zero,
    is the rounding of the exact sum. *)
Lemma SFadd_pos x y c :
  valid_binary x = true -> valid_binary y = true ->
  sf_finite x = true -> sf_finite y = true -> c <= -1074 ->
  0 <= sval c x -> 0 <= sval c y -> 0 < sval c x + sval c y ->
  SF64add x y = round_pos false (sval c x + sval c y) c.
Proof.
  intros Vx Vy Fx Fy Hc Hx Hy HS.
  destruct x as [sx| | |sx mx ex], y as [sy| | |sy my ey]; try discriminate.
  - pose proof (valid_finite_bounds _ _ _ Vy) as (He & _).
    pose proof (sval_pos_sign sy my ey c ltac:(lia) Hc Hy). subst sy.
    change (sval c (S754_zero sx)) with 0. rewrite Z.add_0_l.
    unfold SF64add, SFadd. cbn [sval cond_Zopp]. apply valid_fixed; assumption.
  - pose proof (valid_finite_bounds _ _ _ Vx) as (He & _).
    pose proof (sval_pos_sign sx mx ex c ltac:(lia) Hc Hx). subst sx.
    change (sval c (S754_zero sy)) with 0. rewrite Z.add_0_r.
    unfold SF64add, SFadd. cbn [sval cond_Zopp]. apply valid_fixed; assumption.
  - pose proof (valid_finite_bounds _ _ _ Vx) as (Hex & _).
    pose proof (valid_finite_bounds _ _ _ Vy) as (Hey & _).
    unfold SF64add, SFadd. cbv zeta.
    rewrite !shl_align_min by lia.
    set (ez := Z.min ex ey).
    set (D := cond_Zopp sx (Zpos mx * 2 ^ (ex - ez)) + cond_Zopp sy (Zpos my * 2 ^ (ey - ez))).
    assert (HDs : D * 2 ^ (ez - c) = sval c (S754_finite sx mx ex) + sval c (S754_finite sy my ey)).
    { unfold D. rewrite Z.mul_add_distr_r. rewrite !sval_rescale by lia. reflexivity. }
    assert (Hp : 0 < 2 ^ (ez - c)) by (apply Z.pow_pos_nonneg; lia).
    rewrite <- HDs in *. assert (0 < D) by nia.
    apply binary_normalize_pos; lia.
Qed.

Lemma digits_mul_ge a b : 0 < a -> 0 < b -> digits a + digits b - 1 <= digits (a * b).
Proof.
  intros Ha Hb.
  pose proof (digits_bounds a Ha) as [Hla _]. pose proof (digits_bounds b Hb) as [Hlb _].
  pose proof (digits_pos a Ha). pose proof (digits_pos b Hb).
  destruct (Z.le_gt_cases (digits a + digits b - 1) (digits (a * b))) as [H1|H1]; [exact H1|exfalso].
  assert (Hd : digits (a * b) <= digits a + digits b - 2) by lia.
  apply digits_le_iff in Hd; [|nia].
  assert (2 ^ (digits a - 1) * 2 ^ (digits b - 1) <= a * b).
  { apply Z.mul_le_mono_nonneg; try lia; apply Z.pow_nonneg; lia. }
  rewrite <- Z.pow_add_r in * by lia.
  replace (digits a - 1 + (digits b - 1)) with (digits a + digits b - 2) in * by lia. lia.
Qed.

(** The product of two positive finite floats is the rounding of the
    exact product. *)
Lemma SFmul_pos mx ex my ey c :
  valid_binary (S754_finite false mx ex) = true ->
  valid_binary (S754_finite false my ey) = true -> c <= -2148 ->
  SF64mul (S754_finite false mx ex) (S754_finite false my ey) =
  round_pos false (Zpos mx * Zpos my * 2 ^ (ex + ey - c)) c.
Proof.
  intros Vx Vy Hc.
  pose proof (valid_finite_bounds _ _ _ Vx) as (Hex & Hdx & Hnx).
  pose proof (valid_finite_bounds _ _ _ Vy) as (Hey & Hdy & Hny).
  pose proof (digits_mul_ge (Zpos mx) (Zpos my) ltac:(lia) ltac:(lia)) as Hd.
  pose proof (digits_pos (Zpos mx) ltac:(lia)). pose proof (digits_pos (Zpos my) ltac:(lia)).
  unfold SF64mul, SFmul. cbn [xorb].
  pose proof (rexp_ge (Zpos (mx * my)) (ex + ey)) as [Hmin Hdig].
  rewrite Pos2Z.inj_mul in Hmin, Hdig.
  assert (He : ex + ey <= rexp (Zpos mx * Zpos my) (ex + ey)) by lia.
  rewrite bra_round_pos by (rewrite Pos2Z.inj_mul; exact He).
  rewrite Pos2Z.inj_mul.
  rewrite <- (round_pos_scale false (Zpos mx * Zpos my) (ex + ey) (ex + ey - c)) by lia.
  f_equal. lia.
Qed.

(** *** The same facts on machine floats *)

Lemma is_finite_SF t : PrimFloat.is_finite t = true -> sf_finite (Prim2SF t) = true.
Proof.
  unfold PrimFloat.is_finite, is_nan, is_infinity.
  rewrite !FloatAxioms.eqb_spec, FloatAxioms.abs_spec.
  destruct (Prim2SF t) as [s|s| |s m e]; try reflexivity.
  - destruct s; intros H; discriminate H.
  - intros H; discriminate H.
Qed.

Lemma zero_le_mk s q E : 0 <= q -> SFleb (S754_zero s) (mk_float false q E) = true.
Proof.
  intros Hq. unfold mk_float. destruct q as [|p|p]; [reflexivity| |lia].
  destruct (E <=? emax - prec); reflexivity.
Qed.

Lemma rq_nonneg V c : 0 < V -> c <= -1074 -> 0 <= rq V c.
Proof.
  intros HV Hc.
  pose proof (round_q_le V c HV ltac:(pose proof (rexp_ge V c); lia)).
  unfold rq. cbv zeta. destruct (_ =? _); [cbv; congruence|lia].
Qed.

Lemma zero_le_round s V c : 0 < V -> c <= -1074 -> SFleb (S754_zero s) (round_pos false V c) = true.
Proof.
  intros. rewrite round_pos_mk. apply zero_le_mk. apply rq_nonneg; assumption.
Qed.

Local Open Scope float_scope.

(** [t - t0] is at least zero when [t0 <= t], both finite. *)
Theorem sub_nonneg t0 t :
  PrimFloat.is_finite t0 = true -> PrimFloat.is_finite t = true ->
  (t0 <=? t) = true -> (0 <=? t - t0) = true.
Proof.
  intros F0 F Hle. rewrite FloatAxioms.leb_spec in *. rewrite FloatAxioms.sub_spec.
  apply is_finite_SF in F0, F.
  pose proof (SFleb_sval _ _ (-1074) (Prim2SF_valid t0) (Prim2SF_valid t) F0 F ltac:(lia) Hle) as Hv.
  destruct (SFsub_nonneg (Prim2SF t) (Prim2SF t0) (-1074) (Prim2SF_valid t) (Prim2SF_valid t0)
              F F0 ltac:(lia) ltac:(lia)) as [[_ [s ->]]|[HD ->]].
  - reflexivity.
  - apply (zero_le_round false); lia.
Qed.

(** [t1 - t0 <= t2 - t0] when [t0 <= t1 <= t2], all finite. *)
Theorem sub_mono t0 t1 t2 :
  PrimFloat.is_finite t0 = true -> PrimFloat.is_finite t1 = true -> PrimFloat.is_finite t2 = true ->
  (t0 <=? t1) = true -> (t1 <=? t2) = true -> (t1 - t0 <=? t2 - t0) = true.
Proof.
  intros F0 F1 F2 H01 H12. rewrite FloatAxioms.leb_spec in *. rewrite !FloatAxioms.sub_spec.
  apply is_finite_SF in F0, F1, F2.
  pose proof (SFleb_sval _ _ (-1074) (Prim2SF_valid t0) (Prim2SF_valid t1) F0 F1 ltac:(lia) H01) as Hv1.
  pose proof (SFleb_sval _ _ (-1074) (Prim2SF_valid t1) (Prim2SF_valid t2) F1 F2 ltac:(lia) H12) as Hv2.
  destruct (SFsub_nonneg (Prim2SF t1) (Prim2SF t0) (-1074) (Prim2SF_valid t1) (Prim2SF_valid t0)
              F1 F0 ltac:(lia) ltac:(lia)) as [[_ [s1 ->]]|[HD1 ->]];
  destruct (SFsub_nonneg (Prim2SF t2) (Prim2SF t0) (-1074) (Prim2SF_valid t2) (Prim2SF_valid t0)
              F2 F0 ltac:(lia) ltac:(lia)) as [[HD2 [s2 ->]]|[HD2 ->]].
  - reflexivity.
  - apply zero_le_round; lia.
  - lia.
  - apply round_pos_mono; lia.
Qed.

(** [random.uniform(500.0, 600.0)] lies between 500.0 and 600.0, both
    included, for every draw [0 <= r < 1]. *)
Theorem uniform_500_600_bounds r :
  (0 <=? r) = true -> (r <? 1) = true ->
  (500 <=? uniform 500 600 r) = true /\ (uniform 500 600 r <=? 600) = true.
Proof.
  intros H0 H1. unfold uniform.
  change (600 - 500) with 100.
  rewrite !FloatAxioms.leb_spec in *. rewrite FloatAxioms.ltb_spec in H1. rewrite FloatAxioms.add_spec, FloatAxioms.mul_spec.
  pose proof (Prim2SF_valid r) as Vr.
  pose proof (Prim2SF_valid (100 * r)) as Vx. rewrite FloatAxioms.mul_spec in Vx.
  assert (V500 : valid_binary (Prim2SF 500) = true) by apply Prim2SF_valid.
  assert (V600 : valid_binary (Prim2SF 600) = true) by apply Prim2SF_valid.
  assert (V100 : valid_binary (Prim2SF 100) = true) by apply Prim2SF_valid.
  assert (V1 : valid_binary (Prim2SF 1) = true) by apply Prim2SF_valid.
  assert (V0 : valid_binary (Prim2SF 0) = true) by apply Prim2SF_valid.
  change (Prim2SF 0) with (S754_zero false) in *.
  change (Prim2SF 1) with (S754_finite false 4503599627370496 (-52)) in *.
  change (Prim2SF 100) with (S754_finite false 7036874417766400 (-46)) in *.
  change (Prim2SF 500) with (S754_finite false 8796093022208000 (-44)) in *.
  change (Prim2SF 600) with (S754_finite false 5277655813324800 (-43)) in *.
  set (c := (-2148)%Z).
  assert (Hc : (c <= -1074)%Z) by (unfold c; lia).
  assert (Fr : sf_finite (Prim2SF r) = true).
  { destruct (Prim2SF r) as [s|s| |s m e]; try reflexivity; try discriminate.
    destruct s; discriminate. }
  pose proof (SFleb_sval _ _ c V0 Vr eq_refl Fr Hc H0) as Hr0.
  pose proof (SFltb_sval _ _ c Vr V1 Fr eq_refl Hc H1) as Hr1.
  destruct (Prim2SF r) as [s|s| |s mr er] eqn:Er; try discriminate.
  - (* r is a zero *)
    split; reflexivity.
  - pose proof (valid_finite_bounds _ _ _ Vr) as (Her & _).
    pose proof (sval_pos_sign s mr er c ltac:(lia) Hc Hr0). subst s.
    rewrite (SFmul_pos _ _ mr er c V100 Vr ltac:(unfold c; lia)) in Vx |- *.
    set (Vx' := (7036874417766400 * Z.pos mr * 2 ^ (-46 + er - c))%Z) in *.
    assert (HVx : (0 < Vx')%Z).
    { unfold Vx'. apply Z.mul_pos_pos; [lia|apply Z.pow_pos_nonneg; lia]. }
    cbn [sval cond_Zopp] in Hr1.
    (* x <= 100 *)
    assert (Hx100 : SFleb (round_pos false Vx' c) (S754_finite false 7036874417766400 (-46)) = true).
    { rewrite (valid_fixed 7036874417766400 (-46) c V100 Hc).
      apply round_pos_mono; [exact HVx| |exact Hc].
      pose proof (SFltb_sval _ _ (c + 46) Vr V1 Fr eq_refl ltac:(unfold c; lia) H1) as Hr1'.
      cbn [sval cond_Zopp] in Hr1'.
      unfold Vx'. rewrite <- Z.mul_assoc.
      apply Z.mul_le_mono_nonneg_l; [lia|].
      replace (-46 + er - c)%Z with (er - (c + 46))%Z by lia.
      replace (-46 - c)%Z with (52 + (-52 - (c + 46)))%Z by lia.
      rewrite (Z.pow_add_r 2 52) by (unfold c; lia).
      change (2 ^ 52)%Z with 4503599627370496%Z. lia. }
    assert (Fx : sf_finite (round_pos false Vx' c) = true).
    { rewrite round_pos_mk in *. unfold mk_float in *.
      destruct (rq Vx' c); try reflexivity.
      - destruct (_ <=? _)%Z; [reflexivity|discriminate].
      - discriminate. }
    pose proof (zero_le_round false Vx' c HVx Hc) as Hx0.
    pose proof (SFleb_sval _ _ c V0 Vx eq_refl Fx Hc Hx0) as Hsx0.
    pose proof (SFleb_sval _ _ c Vx V100 Fx eq_refl Hc Hx100) as Hsx100.
    change (sval c (S754_zero false)) with 0%Z in Hsx0.
    set (sx := round_pos false Vx' c) in *.
    assert (H500 : (0 < sval c (S754_finite false 8796093022208000 (-44)))%Z) by (vm_compute; reflexivity).
    rewrite (SFadd_pos _ sx c V500 Vx eq_refl Fx Hc) by lia.
    split.
    + rewrite (valid_fixed 8796093022208000 (-44) c V500 Hc) at 1.
      apply round_pos_mono; [|cbn [sval cond_Zopp]|exact Hc]; [exact H500|lia].
    + rewrite (valid_fixed 5277655813324800 (-43) c V600 Hc).
      apply round_pos_mono; [lia| |exact Hc].
      assert (H600 : (sval c (S754_finite false 8796093022208000 (-44)) +
                      sval c (S754_finite false 7036874417766400 (-46)) =
                      5277655813324800 * 2 ^ (-43 - c))%Z) by (vm_compute; reflexivity).
      lia.
Qed.

(** The largest draw gives 600.0. *)
Lemma uniform_hits_600 : uniform 500 600 0x1.fffffffffffffp-1 = 600.
Proof. vm_compute. reflexivity. Qed.

Local Close Scope float_scope.
Local Close Scope Z_scope.

Arguments path_join : simpl never.
Arguments dirname : simpl never.

(** ** The display window *)

Lemma add_all_fields (p : PlotWindow) (pts : list (float * float)) :
  max_points (add_all p pts) = max_points p /\
  wm_time (add_all p pts) = wm_time p ++ (fst <$> pts) /\
  wm_wavelength (add_all p pts) = wm_wavelength p ++ (snd <$> pts) /\
  curve (add_all p pts) = curve p.
Proof.
  revert p. induction pts as [|[t v] pts IH]; intros p.
  - cbn. rewrite !app_nil_r. done.
  - cbn [add_all fold_left]. fold (add_all (add_data p (t, v).1 (t, v).2) pts).
    destruct (IH (add_data p (t, v).1 (t, v).2)) as (H1 & H2 & H3 & H4).
    rewrite H1, H2, H3, H4. cbn. rewrite <- !app_assoc. done.
Qed.

Lemma py_slice_from_last {A} (l : list A) (k : Z) :
  (0 < k)%Z -> py_slice_from l (- k) = drop (length l - Z.to_nat k) l.
Proof.
  intros Hk. unfold py_slice_from.
  destruct (Z.ltb_spec (- k) 0); [|lia].
  f_equal. lia.
Qed.

(** C1 (as amended): the window keeps every point it is handed; what a
    refresh draws, for a positive [max_points], is the last
    [min n max_points] points in arrival order. *)
Theorem drawn_window_bounded (mp : Z) (pts : list (float * float)) :
  (0 < mp)%Z -> (0 < length pts)%nat ->
  let win := update_plot (add_all (PlotWindow_init mp) pts) in
  wm_time win = (fst <$> pts) /\ wm_wavelength win = (snd <$> pts) /\
  curve win = (drop (length pts - Z.to_nat mp) (fst <$> pts),
               drop (length pts - Z.to_nat mp) (snd <$> pts)) /\
  length (curve win).1 = Nat.min (length pts) (Z.to_nat mp) /\
  (Z.of_nat (length (curve win).1) <= mp)%Z.
Proof.
  intros Hmp Hn win. subst win.
  destruct (add_all_fields (PlotWindow_init mp) pts) as (H1 & H2 & H3 & H4).
  cbn in H1, H2, H3. unfold update_plot. rewrite H1, H2, H3.
  rewrite length_fmap.
  destruct (Nat.ltb_spec 0 (length pts)) as [_|]; [|lia].
  cbn [wm_time wm_wavelength curve fst].
  rewrite !py_slice_from_last by lia. rewrite !length_fmap, length_drop, length_fmap.
  repeat split; lia.
Qed.

Lemma drawn_window_bounded_witness :
  let win := update_plot (add_all (PlotWindow_init 2) three_points) in
  wm_time win = [0.25; 0.5; 0.75]%float /\ curve win = ([0.5; 0.75], [532.5; 532.75])%float.
Proof.
  destruct (drawn_window_bounded 2 three_points ltac:(lia) ltac:(cbn; lia))
    as (H1 & _ & H3 & _).
  split; [exact H1 | exact H3].
Defined.

(** C1 as stated fails: with the default [max_points] of 500, a window
    handed 501 points holds all 501 of them, before and after a refresh. *)
Lemma buffer_exceeds_max_points :
  let win := add_all (PlotWindow_init default_max_points) (replicate 501 (0%float, 532%float)) in
  max_points win = 500%Z /\
  length (wm_time win) = 501%nat /\
  length (wm_time (update_plot win)) = 501%nat /\
  length (curve (update_plot win)).1 = 500%nat.
Proof. vm_compute. done. Qed.

(** With [max_points = 0] the slice [l[-0:]] is the whole list. *)
Lemma zero_max_points_draws_all :
  curve (update_plot (add_all (PlotWindow_init 0) three_points)) =
  ([0.25; 0.5; 0.75], [532.25; 532.5; 532.75])%float.
Proof. reflexivity. Qed.

Lemma step_same_but_stdout env a w w' f :
  same_but_stdout w w' ->
  (step env a w f).2 = (step env a w' f).2 /\
  same_but_stdout (step env a w f).1 (step env a w' f).1.
Proof.
  destruct w, w'. unfold same_but_stdout. cbn.
  intros (-> & -> & -> & -> & -> & -> & ->).
  unfold step. destruct f as [l ts o c ct cw]. cbn.
  destruct l; cbn; repeat case_match; cbn; done.
Qed.

Lemma act_same_but_stdout env a w w' f x :
  same_but_stdout w w' ->
  (act env a (w, f) x).2 = (act env a (w', f) x).2 /\
  same_but_stdout (act env a (w, f) x).1 (act env a (w', f) x).1.
Proof.
  intros H. destruct x; cbn [act fst snd].
  - by apply step_same_but_stdout.
  - split; [done|]. destruct w, w'. unfold same_but_stdout in *. cbn in *.
    destruct H as (-> & -> & -> & -> & -> & -> & ->). done.
  - done.
Qed.

Lemma exec_same_but_stdout env a sched : forall w w' f,
  same_but_stdout w w' ->
  (exec env a sched (w, f)).2 = (exec env a sched (w', f)).2 /\
  same_but_stdout (exec env a sched (w, f)).1 (exec env a sched (w', f)).1.
Proof.
  induction sched as [|x sched IH]; intros w w' f H; [done|].
  cbn [exec fold_left]. fold (exec env a sched).
  destruct (act_same_but_stdout env a w w' f x H) as [Hf Hw].
  destruct (act env a (w, f) x) as [w1 f1], (act env a (w', f) x) as [w1' f1'].
  cbn in Hf, Hw. subst f1'. by apply IH.
Qed.

Lemma closeEvent_iter_same w n :
  same_but_stdout (Nat.iter (S n) closeEvent w) (closeEvent w).
Proof.
  induction n as [|n IH].
  - done.
  - change (Nat.iter (S (S n)) closeEvent w) with (closeEvent (Nat.iter (S n) closeEvent w)).
    destruct IH as (H1 & H2 & H3 & H4 & H5 & H6 & H7).
    unfold same_but_stdout, closeEvent in *. cbn in *. done.
Qed.

(** C8: closing the window any number of times leaves the program where one
    close leaves it.  [closeEvent] touches the stop event and the console
    only; the event it sets is set already after the first close, and the
    acquisition loop, which reads the event and never the console, goes
    on the same way under every schedule. *)
Theorem close_many_is_close_once (env : Env) (a : LoopArgs) (w : World) (f : Frame)
    (n : nat) (sched : list action) :
  let once := closeEvent w in
  let many := Nat.iter (S n) closeEvent w in
  is_set (stop_event once) = true /\
  same_but_stdout many once /\
  (exec env a sched (many, f)).2 = (exec env a sched (once, f)).2 /\
  same_but_stdout (exec env a sched (many, f)).1 (exec env a sched (once, f)).1 /\
  Event_set (Event_set (stop_event w)) = Event_set (stop_event w).
Proof.
  intros once many. pose proof (closeEvent_iter_same w n) as H.
  split; [done|]. split; [exact H|].
  destruct (exec_same_but_stdout env a sched many once f H) as [H1 H2].
  done.
Qed.

(** The stop event is set the same way from either side: by the window, by
    the loop's own handler, by another thread. *)
Lemma stop_set_from_either_side env a w f :
  stop_event (closeEvent w) = Event_set (stop_event w) /\
  stop_event (act env a (w, f) ASetStop).1 = Event_set (stop_event w) /\
  stop_event (step env a w (goto L128 f)).1 = Event_set (stop_event w) /\
  Event_set (stop_event w) = Event_set Event_new.
Proof. done. Qed.

Lemma exec_app env a s1 s2 s :
  exec env a (s1 ++ s2) s = exec env a s2 (exec env a s1 s).
Proof. unfold exec. apply fold_left_app. Qed.

Lemma exec_cons env a x sched s :
  exec env a (x :: sched) s = exec env a sched (act env a s x).
Proof. done. Qed.

Lemma exec_step env a sched w f :
  exec env a (AStep :: sched) (w, f) = exec env a sched (step env a w f).
Proof. done. Qed.

Lemma exec_finished env a k w f :
  finished f = true -> exec env a (replicate k AStep) (w, f) = (w, f).
Proof.
  intros H. induction k as [|k IH]; [done|].
  cbn [replicate]. rewrite exec_step.
  replace (step env a w f) with (w, f); [exact IH|].
  unfold step. unfold finished in H.
  destruct (at_line f); try discriminate; done.
Qed.

Lemma flush_rows_lookup fs0 p buf :
  files (flush_rows fs0 p buf) !! p = Some (default [] (files fs0 !! p) ++ buf).
Proof. unfold flush_rows. cbn. apply lookup_insert_eq. Qed.

(** *** The statements of [measurement_loop], one equation each *)




Ltac run_step :=
  rewrite exec_step;
  lazymatch goal with
  | |- context [step ?e ?a ?w ?f] =>
      let r := eval cbn -[path_join dirname] in (step e a w f) in
      change (step e a w f) with r
  end.


Lemma step_L110_unparseable env a w f res p r :
  at_line f = L110 -> debug_mode a = false -> wm a = Some res ->
  config_dict a !! "property" = Some p ->
  query env (queries w) = Reply r -> py_float env r = None ->
  step env a w f =
  (wm_ask (":MEASure:" +:+ p +:+ "?") w, goto (Lexit (Some (ValueError r))) f).
Proof.
  intros H1 H2 H3 H4 H5 H6. unfold step. rewrite H1, H2, H3, H4, H5, H6. done.
Qed.

Lemma act_raised env a w f e x :
  at_line f = Lraised e ->
  (act env a (w, f) x).2 = f /\ fs (act env a (w, f) x).1 = fs w /\
  queries (act env a (w, f) x).1 = queries w /\
  clock_reads (act env a (w, f) x).1 = clock_reads w /\
  stdout (act env a (w, f) x).1 = stdout w.
Proof.
  intros H. destruct x; cbn [act fst snd].
  - unfold step. rewrite H. done.
  - done.
  - unfold interrupt. rewrite H. done.
Qed.

Lemma exec_raised env a sched : forall w f e,
  at_line f = Lraised e ->
  (exec env a sched (w, f)).2 = f /\ fs (exec env a sched (w, f)).1 = fs w /\
  queries (exec env a sched (w, f)).1 = queries w /\
  clock_reads (exec env a sched (w, f)).1 = clock_reads w /\
  stdout (exec env a sched (w, f)).1 = stdout w.
Proof.
  induction sched as [|x sched IH]; intros w f e H; [done|].
  rewrite exec_cons.
  destruct (act_raised env a w f e x H) as (H1 & H2 & H3 & H4 & H5).
  destruct (act env a (w, f) x) as [w1 f1]. cbn in H1, H2, H3, H4, H5. subst f1.
  destruct (IH w1 f e H) as (I1 & I2 & I3 & I4 & I5).
  rewrite I1, I2, I3, I4, I5. done.
Qed.

(** C6: a reply that [float] cannot parse ends the run.  The [ValueError]
    has no handler: it leaves the [with] block, which closes the log with
    every written row on disk, and then the loop; the stop event is not
    touched, the query is not sent again, and nothing that happens
    afterwards brings the loop back. *)
Theorem unparseable_reply_ends_the_run (env : Env) (a : LoopArgs) (s : World * Frame)
    (res p r : string) (sched : list action) :
  at_line s.2 = L110 -> debug_mode a = false -> wm a = Some res ->
  config_dict a !! "property" = Some p ->
  query env (queries s.1) = Reply r -> py_float env r = None ->
  let raised := exec env a [AStep; AStep] s in
  let later := exec env a sched raised in
  at_line (step env a s.1 s.2).2 = Lexit (Some (ValueError r)) /\
  at_line raised.2 = Lraised (ValueError r) /\
  csvfile raised.2 = None /\
  on_disk raised = written s /\
  stop_event raised.1 = stop_event s.1 /\
  queries raised.1 = S (queries s.1) /\
  later.2 = raised.2 /\ fs later.1 = fs raised.1 /\ queries later.1 = queries raised.1.
Proof.
  intros H1 H2 H3 H4 H5 H6 raised later. subst later raised.
  destruct s as [w f]. cbn [fst snd] in *.
  rewrite exec_step, (step_L110_unparseable env a w f res p r) by assumption.
  run_step. cbn [exec fold_left].
  set (fr := goto (Lraised (ValueError r)) _).
  set (wr := match csvfile _ with Some _ => _ | None => _ end).
  destruct (exec_raised env a sched wr fr (ValueError r) eq_refl) as (I1 & I2 & I3 & _).
  rewrite I1, I2, I3. subst fr wr.
  unfold on_disk, written, on_disk, buffered. cbn.
  destruct (csvfile f) as [buf|]; cbn.
  - rewrite lookup_insert_eq. done.
  - rewrite app_nil_r. done.
Qed.

(** ** Paths *)

Lemma length_string_app (s1 s2 : string) :
  String.length (s1 +:+ s2) = (String.length s1 + String.length s2)%nat.
Proof.
  induction s1 as [|c s1 IH]; [done|].
  change (String c s1 +:+ s2) with (String c (s1 +:+ s2)).
  cbn [String.length]. rewrite IH. done.
Qed.

Lemma head_upto_last_sep_length p :
  (String.length (head_upto_last_sep p) <= String.length p)%nat.
Proof.
  induction p as [|c p IH]; [done|].
  cbn [head_upto_last_sep]. destruct (has_sep (String c p)); cbn; lia.
Qed.

Lemma rstrip_sep_length s : (String.length (rstrip_sep s) <= String.length s)%nat.
Proof.
  induction s as [|c s IH]; [done|].
  cbn [rstrip_sep]. destruct (all_sep (String c s)); cbn; lia.
Qed.

Lemma dirname_length p : (String.length (dirname p) <= String.length p)%nat.
Proof.
  unfold dirname. pose proof (head_upto_last_sep_length p).
  pose proof (rstrip_sep_length (head_upto_last_sep p)).
  destruct (_ && _); lia.
Qed.

Lemma head_upto_last_sep_full p :
  head_upto_last_sep p = p -> p = EmptyString \/ ends_with_sep p = true.
Proof.
  induction p as [|c p IH]; [by left|]. intros Hp. right.
  cbn [head_upto_last_sep] in Hp. destruct (has_sep (String c p)) eqn:Hs; [|discriminate Hp].
  injection Hp as Hp. destruct (IH Hp) as [->|He].
  - cbn in *. by rewrite orb_false_r in Hs.
  - cbn. destruct p; [discriminate He|exact He].
Qed.

Lemma rstrip_sep_shorter s :
  ends_with_sep s = true -> (String.length (rstrip_sep s) < String.length s)%nat.
Proof.
  induction s as [|c s IH]; [intros Hx; discriminate Hx|].
  intros He. cbn [rstrip_sep]. destruct (all_sep (String c s)) eqn:Ha; [cbn; lia|].
  destruct s as [|c' s'].
  - cbn in *. rewrite He in Ha. discriminate.
  - cbn [String.length]. specialize (IH He). cbn [String.length] in IH. lia.
Qed.

Lemma dirname_fixed p : dirname p = p -> all_sep p = true.
Proof.
  unfold dirname. pose proof (head_upto_last_sep_length p) as Hh.
  destruct (negb (head_upto_last_sep p =? "")%string && negb (all_sep (head_upto_last_sep p)))
    eqn:Hc.
  - intros Hp. exfalso. apply andb_true_iff in Hc as [Hc1 Hc2].
    pose proof (rstrip_sep_length (head_upto_last_sep p)) as Hr.
    assert (Hlen : String.length (head_upto_last_sep p) = String.length p).
    { rewrite Hp in Hr. lia. }
    assert (Hhp : head_upto_last_sep p = p).
    { clear -Hlen. induction p as [|c p IH]; [done|].
      cbn [head_upto_last_sep] in *. destruct (has_sep (String c p)); [|discriminate Hlen].
      cbn in Hlen. f_equal. apply IH. lia. }
    rewrite Hhp in *. destruct (head_upto_last_sep_full p Hhp) as [->|He].
    + discriminate.
    + pose proof (rstrip_sep_shorter p He). rewrite Hp in *. lia.
  - intros Hp. rewrite Hp in Hc. apply andb_false_iff in Hc as [Hc|Hc].
    + apply negb_false_iff, String.eqb_eq in Hc. subst. done.
    + by apply negb_false_iff in Hc.
Qed.

Lemma parents_from_shorter p : forall acc q,
  q ∈ parents_from acc p -> (String.length q < String.length acc + String.length p)%nat.
Proof.
  induction p as [|c p IH]; intros acc q Hq; cbn [parents_from] in Hq.
  - by apply elem_of_nil in Hq.
  - apply elem_of_app in Hq as [Hq|Hq].
    + destruct (_ && _); [|by apply elem_of_nil in Hq].
      apply list_elem_of_singleton in Hq. subst. cbn. lia.
    + apply IH in Hq. rewrite length_string_app in Hq. cbn in *. lia.
Qed.

(** Making a directory, with the directories above it, puts nothing in it. *)
Lemma makedirs_keeps_empty fs0 p fs1 :
  makedirs fs0 p = inl fs1 -> all_sep p = false -> empty_dir fs0 p -> empty_dir fs1 p.
Proof.
  intros Hm Hp He q Hq. destruct (He q Hq) as [H1 H2].
  unfold makedirs in Hm. destruct (list_find _ _) as [[i d]|]; [done|].
  injection Hm as <-. cbn. split; [done|].
  intros Hin. apply elem_of_union in Hin as [Hin|Hin]; [done|].
  apply elem_of_list_to_set, elem_of_app in Hin as [Hin|Hin].
  - apply parents_from_shorter in Hin. pose proof (dirname_length q).
    rewrite Hq in *. cbn in *. lia.
  - apply list_elem_of_singleton in Hin. subst q.
    apply dirname_fixed in Hq. congruence.
Qed.

(** ** [main] *)



(** A process whose main thread is gone and that has no measurement thread
    does not move. *)
Lemma proc_step_gone env p e :
  thread p = None -> window p = None -> main_at p <> M194 -> main_at p <> M206 ->
  proc_step env p e = p.
Proof.
  intros H1 H2 H3 H4. destruct e; cbn; rewrite ?H1, ?H2; try done.
  - destruct (main_at p) eqn:E; rewrite ?E; done.
  - destruct (main_at p) eqn:E; rewrite ?E; done.
Qed.

Lemma main_run_gone env sched p :
  thread p = None -> window p = None -> main_at p <> M194 -> main_at p <> M206 ->
  fold_left (proc_step env) sched p = p.
Proof.
  intros H1 H2 H3 H4. induction sched as [|e sched IH]; [done|].
  cbn. rewrite proc_step_gone by done. exact IH.
Qed.

Lemma main_start_uncaught args h w e :
  makedirs (fs w) (make_readout_dir h) = inr e ->
  main_start args h w = mkProc w None None false false (Muncaught e) (make_readout_dir h).
Proof. intros H. unfold main_start. rewrite H. done. Qed.

Lemma main_start_abort args h w fs1 :
  makedirs (fs w) (make_readout_dir h) = inl fs1 ->
  debug args = false -> open_resource h = ConnectFails ->
  main_start args h w =
  mkProc (print "Error querying wavemeter" (set_fs fs1 w)) None None false false Mreturned
         (make_readout_dir h).
Proof. intros H1 H2 H3. unfold main_start. rewrite H1, H2, H3. done. Qed.


Lemma makedirs_inl fs0 p fs1 :
  makedirs fs0 p = inl fs1 ->
  files fs1 = files fs0 /\ dirs fs1 = dirs fs0 ∪ list_to_set (parents_from "" p ++ [p]).
Proof.
  unfold makedirs. destruct (list_find _ _) as [[i d]|]; [done|].
  intros [= <-]. done.
Qed.


(** C10: the output directory is made before the connection is tried.
    When the connection fails and [main] returns, the directory exists;
    no thread was started, no file was created and nothing was sent to
    the instrument, so a directory that was not there, or was empty,
    is empty. *)
Theorem output_directory_outlives_failed_connection (env : Env) (args : Args) (h : Host)
    (sched : list pevent) (w : World) :
  debug args = false -> open_resource h = ConnectFails ->
  let p := main env args h sched w in
  main_at p = Mreturned ->
  make_readout_dir h ∈ dirs (fs (world p)) /\
  dirs (fs (world p)) = dirs (fs w) ∪ list_to_set (parents_from "" (make_readout_dir h)
                                                       ++ [make_readout_dir h]) /\
  files (fs (world p)) = files (fs w) /\
  thread p = None /\ bus (world p) = bus w /\ exit_status p = Some 0%Z /\
  (all_sep (make_readout_dir h) = false -> empty_dir (fs w) (make_readout_dir h) ->
   empty_dir (fs (world p)) (make_readout_dir h)).
Proof.
  intros Hd Ho p Hp. subst p. unfold main in *.
  destruct (makedirs (fs w) (make_readout_dir h)) as [fs1|e] eqn:Hm.
  - rewrite (main_start_abort args h w fs1) in * by done.
    rewrite main_run_gone in * by done. cbn.
    destruct (makedirs_inl _ _ _ Hm) as [Hf Hdirs]. rewrite Hf, Hdirs.
    split.
    { apply elem_of_union. right. apply elem_of_list_to_set, elem_of_app. right.
      by apply list_elem_of_singleton. }
    do 5 (split; [done|]). intros Hsep Hempty.
    pose proof (makedirs_keeps_empty _ _ _ Hm Hsep Hempty) as He.
    intros q Hq. destruct (He q Hq) as [H1 H2]. rewrite Hf, Hdirs in *. done.
  - rewrite (main_start_uncaught args h w e Hm) in Hp.
    rewrite main_run_gone in Hp by done. done.
Qed.

Lemma output_directory_outlives_failed_connection_witness :
  let p := main lab_env default_args host_down [PMain; PCtrlC] (World_init lab_fs) in
  main_at p = Mreturned /\ lab_dir ∈ dirs (fs (world p)) /\
  files (fs (world p)) = ∅ /\ thread p = None /\ exit_status p = Some 0%Z.
Proof.
  destruct (output_directory_outlives_failed_connection lab_env default_args host_down
              [PMain; PCtrlC] (World_init lab_fs) eq_refl eq_refl eq_refl)
    as (H1 & _ & H3 & H4 & _ & H6 & _).
  split; [reflexivity|]. split; [exact H1|]. split; [exact H3|]. split; [exact H4|exact H6].
Defined.


(** The three ways out, on the laboratory: the connection fails; the run is
    interrupted; the window is closed. *)
Lemma three_runs_exit_zero :
  exit_status (main lab_env default_args host_down [] (World_init lab_fs)) = Some 0%Z /\
  exit_status (main lab_env debug_args host_up
                 (replicate 13 PThread ++ [PCtrlC] ++ replicate 10 PThread ++ [PMain])
                 (World_init lab_fs)) = Some 0%Z /\
  exit_status (main lab_env graph_args host_up
                 (replicate 13 PThread ++ [PDeliver; PRedraw; PClose; PMain]
                  ++ replicate 10 PThread)
                 (World_init lab_fs)) = Some 0%Z.
Proof. vm_compute. done. Qed.



(** ** The invariant of the acquisition loop *)

Lemma Inv_init env a w : Inv env a w (w, Frame_init).
Proof. by apply Inv_start. Qed.

Lemma written_flush w f buf c :
  csvfile f = Some buf ->
  written (set_fs (flush_rows (fs w) (output_file f) buf) w, 
           mkFrame (at_line f) (t_start f) (output_file f) c (current_time f)
                   (current_wavelength f)) =
  written (w, f) ++ default [] c.
Proof.
  intros H. unfold written, on_disk, buffered. cbn. rewrite lookup_insert_eq, H. done.
Qed.

Lemma bounded_by_relax k0 w f w' f' smp :
  bounded_by k0 (w, f) smp ->
  (clock_reads w + (if in_tick (at_line f') then 1 else 0) <=
   clock_reads w' + (if in_tick (at_line f) then 1 else 0))%nat ->
  bounded_by k0 (w', f') smp.
Proof.
  unfold bounded_by. cbn. intros H Hle. eapply Forall_impl; [exact H|].
  cbn. intros kv [H1 H2]. split; [done|].
  destruct (in_tick (at_line f)), (in_tick (at_line f')); lia.
Qed.

Lemma written_close w f l :
  written (match csvfile f with
           | Some buf => set_fs (flush_rows (fs w) (output_file f) buf) w
           | None => w
           end, goto l (set_csvfile None f)) = written (w, f).
Proof.
  unfold written, on_disk, buffered. cbn. destruct (csvfile f) as [buf|]; cbn.
  - rewrite lookup_insert_eq. rewrite app_nil_r. done.
  - done.
Qed.

Lemma written_L120 w f l buf :
  csvfile f = Some buf ->
  written (set_fs (flush_rows (fs w) (output_file f) buf) w,
           goto l (set_csvfile (Some []) f)) = written (w, f).
Proof.
  intros H. unfold written, on_disk, buffered. cbn.
  rewrite lookup_insert_eq, H, app_nil_r. done.
Qed.

Lemma written_L119 w f l buf r :
  csvfile f = Some buf ->
  written (w, goto l (set_csvfile (Some (buf ++ [r])) f)) = written (w, f) ++ [r].
Proof.
  intros H. unfold written, on_disk, buffered. cbn. rewrite H. cbn.
  rewrite app_assoc. done.
Qed.

(** A statement that changes neither the log, nor the clock, nor the
    sample at hand keeps the invariant of a logging loop. *)
Lemma Inv_log_keep env a w0 w f w' f' smp :
  logging (at_line f) = true ->
  written (w, f) = header :: (row_of env (clock_reads w0) <$> smp) ->
  StronglySorted lt (fst <$> smp) ->
  bounded_by (clock_reads w0) (w, f) smp ->
  Forall (fun kv : nat * float => drawn env a kv.2) smp ->
  pending_ok (at_line f) (buffered (w, f)) smp ->
  timed env (clock_reads w0) (w, f) ->
  sampled env a (clock_reads w0) (w, f) ->
  logging (at_line f') = true ->
  written (w', f') = written (w, f) ->
  clock_reads w' = clock_reads w -> t_start f' = t_start f ->
  (in_tick (at_line f') = true ->
   in_tick (at_line f) = true /\ current_time f' = current_time f /\
   (at_line f' <> L110 -> drawn env a (current_wavelength f'))) ->
  pending_ok (at_line f') (buffered (w', f')) smp ->
  Inv env a w0 (w', f').
Proof.
  intros H1 H2 H3 H4 H5 H6 [T1 T2] H8 G1 G2 G3 G4 G5 G6.
  apply (Inv_log _ _ _ _ smp); cbn in *; try done.
  - congruence.
  - eapply bounded_by_relax; [exact H4|]. rewrite G3.
    destruct (in_tick (at_line f')) eqn:E; [|lia].
    destruct (G5 eq_refl) as [-> _]. lia.
  - split; cbn; congruence.
  - intros E. destruct (G5 E) as (E1 & E2 & E3). destruct (H8 E1) as (S1 & S2 & S3).
    cbn in *. rewrite G3, E2. done.
Qed.

Ltac keep_inv :=
  lazymatch goal with
  | El : at_line ?f = _, H2 : written (?w, ?f) = _ :: (_ <$> ?smp),
    H3 : StronglySorted _ _, H4 : bounded_by _ _ _, H5 : Forall _ ?smp,
    H6 : pending_ok _ _ _, H7 : timed _ _ _, H8 : sampled _ _ _ _
    |- Inv ?env ?a ?w0 _ =>
      eapply (Inv_log_keep env a w0 w f _ _ smp);
        [rewrite El; done | exact H2 | exact H3 | exact H4 | exact H5
        | rewrite El; exact H6 | exact H7 | exact H8 | ..]
  end.

Lemma step_preserves_Inv env a w0 w f : Inv env a w0 (w, f) -> Inv env a w0 (step env a w f).
Proof.
  intros HI. remember (w, f) as s eqn:Es.
  destruct HI as [s H1 H2 H3 H4| s H1 H2 H3 H4| s e H1 H2 H3| s H1 H2 H3
                 | s smp H1 H2 H3 H4 H5 H6 H7 H8]; subst s; cbn in *.
  - unfold step. rewrite H1.
    apply Inv_pre; cbn; [by left|done|done|].
    split; cbn; [congruence|lia].
  - unfold step. destruct H4 as [T1 T2]. cbn in *.
    destruct H1 as [H1|H1]; rewrite H1.
    + destruct (config_dict a !! "readout_dir") as [d|].
      * apply Inv_pre; cbn; [by right|done|done|done].
      * by eapply Inv_dead.
    + unfold open_w. case_bool_decide.
      * apply Inv_empty; cbn; [left; done| |done].
        unfold written, on_disk, buffered. cbn. rewrite lookup_insert_eq. done.
      * by eapply Inv_dead.
  - unfold step. rewrite H1. by eapply Inv_dead.
  - unfold step. destruct H3 as [T1 T2]. cbn in *.
    destruct H1 as [[H1 Hc]|[[e H1]|[e [H1 Hc]]]]; rewrite H1.
    + rewrite Hc. apply (Inv_log _ _ _ _ []); cbn; try done.
      * unfold written, on_disk, buffered in *. cbn in *. rewrite Hc in H2.
        rewrite app_nil_r in H2. rewrite H2. done.
      * constructor.
      * constructor.
      * right. done.
    + apply Inv_empty; cbn.
      * right; right. exists e. done.
      * rewrite written_close. done.
      * split; cbn; [done|]. destruct (csvfile f); done.
    + apply Inv_empty; cbn; [|done|done]. right; right. exists e. done.
  - pose proof H7 as [T1 T2]. cbn in T1, T2.
    unfold step. destruct (at_line f) eqn:El; try discriminate H1.
    + (* L101 *)
      keep_inv; cbn; rewrite ?El; try done.
    + (* L107 *)
      keep_inv; cbn; rewrite ?El; try done;
        cbn in H6; destruct (is_set (stop_event w)); done.
    + (* L108 *)
      apply (Inv_log _ _ _ _ smp); cbn;
        [done | exact H2 | exact H3 | | exact H5 | exact H6 | | ].
      * eapply bounded_by_relax; [exact H4|]. cbn. rewrite El. cbn. lia.
      * split; cbn; [done|lia].
      * intros _. cbn. split; [|split; [lia|done]].
        unfold elapsed. rewrite T1. do 2 f_equal. lia.
    + (* L110 *)
      assert (Hs : in_tick (at_line (w, f).2) = true) by (cbn; rewrite El; done).
      destruct (H8 Hs) as (S1 & S2 & S3). cbn in S1, S2, S3.
      assert (Hraise : forall e w', e <> KeyboardInterrupt ->
                written (w', f) = written (w, f) -> clock_reads w' = clock_reads w ->
                Inv env a w0 (w', raise_in_try e f)).
      { intros e w' He Hw Hc.
        keep_inv; cbn; rewrite ?El; try done; destruct e; done. }
      destruct (debug_mode a) eqn:Hdbg.
      * apply (Inv_log _ _ _ _ smp); cbn;
          [done | exact H2 | exact H3 | | exact H5 | exact H6 | exact H7 | ].
        -- eapply bounded_by_relax; [exact H4|]. cbn. rewrite El. cbn. lia.
        -- intros _. cbn. split; [done|]. split; [done|]. intros _ _. eauto.
      * destruct (wm a) as [res|]; [|by apply Hraise].
        destruct (config_dict a !! "property") as [p|]; [|by apply Hraise].
        destruct (query env (queries w)) as [r|]; [|by apply Hraise].
        destruct (py_float env r) as [x|]; [|by apply Hraise].
        apply (Inv_log _ _ _ _ smp); cbn;
          [done | exact H2 | exact H3 | | exact H5 | exact H6 | exact H7 | ].
        -- eapply bounded_by_relax; [exact H4|]. cbn. rewrite El. cbn. lia.
        -- intros _. cbn. split; [done|]. split; [done|]. intros _ Hd'. congruence.
    + (* L116 *)
      assert (Hs : in_tick (at_line (w, f).2) = true) by (cbn; rewrite El; done).
      destruct (H8 Hs) as (S1 & S2 & S3). cbn in S1, S2, S3.
      keep_inv; cbn; rewrite ?El; try done.
      intros _. split; [done|]. split; [done|]. intros _. apply S3. rewrite El. done.
    + (* L119 *)
      assert (Hs : in_tick (at_line (w, f).2) = true) by (cbn; rewrite El; done).
      destruct (H8 Hs) as (S1 & S2 & S3). cbn in S1, S2, S3.
      destruct (csvfile f) as [buf|] eqn:Hc.
      * apply (Inv_log _ _ _ _ (smp ++ [((clock_reads w - 1)%nat, current_wavelength f)]));
          cbn; [done | | | | | done | exact H7 | done].
        -- rewrite (written_L119 _ _ _ _ _ Hc), H2, fmap_app. cbn.
           unfold row_of at 2. cbn. rewrite S1. done.
        -- rewrite fmap_app. apply StronglySorted_app_2.
           ++ intros x1 x2 Hx1 Hx2. cbn in Hx2. apply list_elem_of_singleton in Hx2. subst x2.
              apply list_elem_of_fmap in Hx1 as [kv [-> Hkv]].
              unfold bounded_by in H4. rewrite Forall_forall in H4.
              specialize (H4 kv Hkv). cbn in H4. rewrite El in H4. cbn in H4. lia.
           ++ exact H3.
           ++ cbn. repeat constructor.
        -- unfold bounded_by in *. cbn in *. apply Forall_app. split.
           ++ eapply Forall_impl; [exact H4|]. cbn. rewrite El. cbn. intros kv. lia.
           ++ repeat constructor; cbn; lia.
        -- apply Forall_app. split; [done|]. repeat constructor. cbn. apply S3. rewrite El. done.
      * keep_inv; cbn; rewrite ?El; try done.
    + (* L120 *)
      destruct (csvfile f) as [buf|] eqn:Hc.
      * apply (Inv_log _ _ _ _ smp); cbn;
          [done | | exact H3 | | exact H5 | | exact H7 | done].
        -- rewrite (written_L120 _ _ _ _ Hc). done.
        -- eapply bounded_by_relax; [exact H4|]. cbn. rewrite El. cbn. lia.
        -- left. done.
      * keep_inv; cbn; rewrite ?El; try done.
    + (* L123 *)
      keep_inv; cbn; rewrite ?El; try done;
        destruct (plot_window a); done.
    + (* L126 *)
      keep_inv; cbn; rewrite ?El; try done.
    + (* L128 *)
      keep_inv; cbn; rewrite ?El; try done.
    + (* Lexit *)
      apply (Inv_log _ _ _ _ smp); cbn;
        [ | | exact H3 | | exact H5 | | | ].
      * destruct pending; done.
      * rewrite written_close. done.
      * eapply bounded_by_relax; [exact H4|]. cbn. rewrite El.
        destruct (csvfile f), pending; cbn; lia.
      * destruct pending; cbn; left; done.
      * split; cbn; [done|]. destruct (csvfile f); done.
      * intros E. destruct pending; discriminate E.
    + (* L132 *)
      keep_inv; cbn; rewrite ?El; try done.
    + (* Ldone *)
      apply (Inv_log _ _ _ _ smp); cbn; rewrite ?El; done.
    + (* Lraised *)
      apply (Inv_log _ _ _ _ smp); cbn; rewrite ?El; done.
Qed.

Lemma set_stop_preserves_Inv env a w0 w f :
  Inv env a w0 (w, f) -> Inv env a w0 (set_stop_event (Event_set (stop_event w)) w, f).
Proof.
  intros HI. remember (w, f) as s eqn:Es.
  destruct HI as [s H1 H2 H3 H4| s H1 H2 H3 H4| s e H1 H2 H3| s H1 H2 H3
                 | s smp H1 H2 H3 H4 H5 H6 H7 H8]; subst s; cbn in *.
  - by apply Inv_start.
  - by apply Inv_pre.
  - by eapply Inv_dead.
  - by apply Inv_empty.
  - by apply (Inv_log _ _ _ _ smp).
Qed.

Lemma interrupt_preserves_Inv env a w0 w f :
  Inv env a w0 (w, f) -> Inv env a w0 (w, interrupt f).
Proof.
  intros HI. remember (w, f) as s eqn:Es.
  destruct HI as [s H1 H2 H3 H4| s H1 H2 H3 H4| s e H1 H2 H3| s H1 H2 H3
                 | s smp H1 H2 H3 H4 H5 H6 H7 H8]; subst s; cbn in *.
  - unfold interrupt. rewrite H1. by eapply Inv_dead.
  - unfold interrupt. destruct H1 as [H1|H1]; rewrite H1; by eapply Inv_dead.
  - unfold interrupt. rewrite H1. by eapply Inv_dead.
  - unfold interrupt. destruct H1 as [[H1 Hc]|[[e H1]|[e [H1 Hc]]]]; rewrite H1.
    + apply Inv_empty; cbn; [right; left; eauto|done|done].
    + apply Inv_empty; cbn; [right; left; eauto|done|done].
    + apply Inv_empty; cbn; [right; right; eauto|done|done].
  - unfold interrupt. destruct (at_line f) eqn:El; try discriminate H1;
      try (keep_inv; cbn; rewrite ?El; done);
      apply (Inv_log _ _ _ _ smp); cbn; rewrite ?El; done.
Qed.

Lemma act_preserves_Inv env a w0 s x : Inv env a w0 s -> Inv env a w0 (act env a s x).
Proof.
  destruct s as [w f]. intros HI. destruct x; cbn [act fst snd].
  - by apply step_preserves_Inv.
  - by apply set_stop_preserves_Inv.
  - by apply interrupt_preserves_Inv.
Qed.

Lemma exec_preserves_Inv env a w0 sched : forall s,
  Inv env a w0 s -> Inv env a w0 (exec env a sched s).
Proof.
  induction sched as [|x sched IH]; intros s H; [done|].
  cbn [exec fold_left]. apply IH. by apply act_preserves_Inv.
Qed.

Lemma measurement_loop_Inv env a sched w : Inv env a w (measurement_loop env a sched w).
Proof. apply exec_preserves_Inv, Inv_init. Qed.

(** ** What the log holds *)

Lemma elapsed_nonneg env k0 k :
  monotonic_clock env -> (k0 <= k)%nat -> (0 <=? elapsed env k0 k)%float = true.
Proof.
  intros [Hfin Hmono] Hle. unfold elapsed. apply sub_nonneg; auto.
Qed.

Lemma elapsed_mono env k0 k1 k2 :
  monotonic_clock env -> (k0 <= k1)%nat -> (k1 <= k2)%nat ->
  (elapsed env k0 k1 <=? elapsed env k0 k2)%float = true.
Proof.
  intros [Hfin Hmono] H1 H2. unfold elapsed. apply sub_mono; auto.
Qed.

Lemma nondecreasing_elapsed env k0 ks :
  monotonic_clock env -> StronglySorted lt ks -> Forall (fun k => (k0 < k)%nat) ks ->
  nondecreasing (elapsed env k0 <$> ks) = true.
Proof.
  intros Hc Hs Hb. induction Hs as [|k ks Hs IH Hk]; [done|].
  apply Forall_cons in Hb as [Hk0 Hb]. specialize (IH Hb).
  destruct ks as [|k' ks']; [done|].
  cbn [fmap list_fmap nondecreasing] in *. rewrite IH, andb_true_r.
  apply Forall_cons in Hk as [Hkk' _]. apply elapsed_mono; [done|lia|lia].
Qed.

Lemma Inv_log_samples env (w0 : World) s smp :
  written s = header :: (row_of env (clock_reads w0) <$> smp) ->
  samples s = row_of env (clock_reads w0) <$> smp.
Proof. unfold samples. intros ->. done. Qed.


(** C7: with a monotonic clock, the elapsed times of the logged samples are
    non-negative and never decrease from one sample to the next; so does
    the time of the sample at hand during a tick. *)
Theorem elapsed_time_nonnegative_nondecreasing (env : Env) (a : LoopArgs)
    (sched : list action) (w : World) :
  monotonic_clock env ->
  let s := measurement_loop env a sched w in
  untouched w s \/
  exists times,
    row_time <$> samples s = Some <$> times /\
    Forall (fun t => (0 <=? t)%float = true) times /\
    nondecreasing times = true /\
    (in_tick (at_line s.2) = true ->
     (0 <=? current_time s.2)%float = true /\
     nondecreasing (times ++ [current_time s.2]) = true).
Proof.
  intros Hc s. pose proof (measurement_loop_Inv env a sched w) as HI. fold s in HI.
  destruct HI as [s' H1 H2 H3 H4| s' H1 H2 H3 H4| s' e H1 H2 H3| s' H1 H2 H3
                 | s' smp H1 H2 H3 H4 H5 H6 H7 H8].
  - left. done.
  - left. done.
  - left. done.
  - right. exists []. unfold samples. rewrite H2. split; [done|]. split; [done|].
    split; [done|]. intros Ht. exfalso.
    destruct H1 as [[H1 _]|[[e H1]|[e [H1 _]]]]; rewrite H1 in Ht; discriminate Ht.
  - right. exists (elapsed env (clock_reads w) <$> (fst <$> smp)).
    rewrite (Inv_log_samples _ _ _ _ H2).
    assert (Hb : Forall (fun k => (clock_reads w < k)%nat) (fst <$> smp)).
    { apply Forall_fmap. eapply Forall_impl; [exact H4|]. cbn. intros kv [Hk _]. done. }
    split; [|split; [|split]].
    + rewrite <- !list_fmap_compose. done.
    + apply Forall_fmap. eapply Forall_impl; [exact Hb|]. cbn. intros k Hk.
      apply elapsed_nonneg; [done|lia].
    + by apply nondecreasing_elapsed.
    + intros Ht. destruct (H8 Ht) as (S1 & S2 & _). rewrite S1. split.
      * apply elapsed_nonneg; [done|lia].
      * rewrite <- (list_fmap_singleton (elapsed env (clock_reads w))), <- fmap_app.
        apply nondecreasing_elapsed; [done| |].
        -- apply StronglySorted_app_2; [|done|repeat constructor].
           intros x1 x2 Hx1 Hx2. apply list_elem_of_singleton in Hx2. subst x2.
           apply list_elem_of_fmap in Hx1 as [kv [-> Hkv]].
           unfold bounded_by in H4. rewrite Forall_forall in H4.
           specialize (H4 kv Hkv). cbn in H4. rewrite Ht in H4. lia.
        -- apply Forall_app. split; [done|]. repeat constructor. lia.
Qed.

(** C5 (as amended): in synthetic mode every value the loop produces lies
    in the closed range from 500.0 to 600.0. *)
Theorem synthetic_values_in_closed_range (env : Env) (a : LoopArgs)
    (sched : list action) (w : World) :
  unit_random env -> debug_mode a = true ->
  let s := measurement_loop env a sched w in
  untouched w s \/
  exists values,
    row_value <$> samples s = Some <$> values /\
    Forall (fun v => in_closed_range v = true) values /\
    (at_line s.2 = L116 \/ at_line s.2 = L119 ->
     in_closed_range (current_wavelength s.2) = true).
Proof.
  intros Hr Hd s. pose proof (measurement_loop_Inv env a sched w) as HI. fold s in HI.
  assert (Hin : forall v, drawn env a v -> in_closed_range v = true).
  { intros v Hv. destruct (Hv Hd) as [j ->]. destruct (Hr j) as [R0 R1].
    destruct (uniform_500_600_bounds _ R0 R1) as [B1 B2].
    unfold in_closed_range. rewrite B1, B2. done. }
  destruct HI as [s' H1 H2 H3 H4| s' H1 H2 H3 H4| s' e H1 H2 H3| s' H1 H2 H3
                 | s' smp H1 H2 H3 H4 H5 H6 H7 H8].
  - left. done.
  - left. done.
  - left. done.
  - right. exists []. unfold samples. rewrite H2. split; [done|]. split; [done|].
    intros Ht. exfalso.
    destruct H1 as [[H1 _]|[[e H1]|[e [H1 _]]]]; rewrite H1 in Ht; destruct Ht; discriminate.
  - right. exists (snd <$> smp). rewrite (Inv_log_samples _ _ _ _ H2).
    split; [|split].
    + rewrite <- !list_fmap_compose. done.
    + apply Forall_fmap. eapply Forall_impl; [exact H5|]. cbn. intros kv. apply Hin.
    + intros Ht. apply Hin.
      assert (Hs : in_tick (at_line s'.2) = true) by (destruct Ht as [-> | ->]; done).
      destruct (H8 Hs) as (_ & _ & S3). apply S3. destruct Ht as [-> | ->]; done.
Qed.

(** ** Shutdown *)

Lemma raise_in_try_line e f :
  at_line (raise_in_try e f) = L128 \/ exists e', at_line (raise_in_try e f) = Lexit (Some e').
Proof. destruct e; cbn; eauto. Qed.

Lemma raise_in_try_frame e f :
  output_file (raise_in_try e f) = output_file f /\ csvfile (raise_in_try e f) = csvfile f.
Proof. destruct e; done. Qed.

Lemma act_after_stop env a s x :
  is_set (stop_event s.1) = true ->
  let s' := act env a s x in
  is_set (stop_event s'.1) = true /\
  (clock_reads s'.1 + reads_left (at_line s'.2) <= clock_reads s.1 + reads_left (at_line s.2))%nat /\
  (steps_left (at_line s'.2) + (if is_step x then 1 else 0) <= steps_left (at_line s.2) \/
   (steps_left (at_line s'.2) = 0 /\ steps_left (at_line s.2) = 0))%nat /\
  (opened (at_line s.2) = true ->
   opened (at_line s'.2) = true /\
   (length (written s') + rows_left (at_line s'.2) <=
    length (written s) + rows_left (at_line s.2))%nat).
Proof.
  destruct s as [w f]. intros Hstop. cbv zeta. cbn [fst snd] in Hstop.
  destruct x; cbn [act fst snd is_step].
  - unfold step. destruct (at_line f) eqn:El; cbn [fst snd].
    all: try (cbn; rewrite ?El; cbn; split; [done|]; split; [lia|]; split; [lia|];
              first [discriminate | intros _; split; [done|]; unfold written, on_disk, buffered; cbn; lia]).
    + (* L96 *)
      destruct (config_dict a !! "readout_dir"); cbn; rewrite ?El; cbn;
        (split; [done|]; split; [lia|]; split; [lia|discriminate]).
    + (* L98 *)
      destruct (open_w (fs w) (output_file f)); cbn; rewrite ?El; cbn;
        (split; [done|]; split; [lia|]; split; [lia|discriminate]).
    + (* L100 *)
      destruct (csvfile f) eqn:Hc; cbn; rewrite ?El; cbn;
        (split; [done|]; split; [lia|]; split; [lia|]; intros _; split; [done|]).
      * unfold written, on_disk, buffered. cbn. rewrite Hc. cbn.
        rewrite !length_app. cbn. lia.
      * unfold written, on_disk, buffered. cbn. lia.
    + (* L107 *)
      rewrite Hstop. cbn. rewrite ?El. cbn.
      split; [done|]. split; [lia|]. split; [lia|]. intros _. split; [done|].
      unfold written, on_disk, buffered. cbn. lia.
    + (* L110 *)
      assert (Hraise : forall e w',
        is_set (stop_event w') = true -> clock_reads w' = clock_reads w -> fs w' = fs w ->
        is_set (stop_event (w', raise_in_try e f).1) = true /\
        (clock_reads (w', raise_in_try e f).1 + reads_left (at_line (w', raise_in_try e f).2)
         <= clock_reads w + reads_left L110)%nat /\
        (steps_left (at_line (w', raise_in_try e f).2) + 1 <= steps_left L110 \/
         (steps_left (at_line (w', raise_in_try e f).2) = 0 /\ steps_left L110 = 0))%nat /\
        (opened L110 = true ->
         opened (at_line (w', raise_in_try e f).2) = true /\
         (length (written (w', raise_in_try e f)) + rows_left (at_line (w', raise_in_try e f).2)
          <= length (written (w, f)) + rows_left L110)%nat)).
      { intros e w' H1 H2 H3. destruct (raise_in_try_frame e f) as [F1 F2].
        unfold written, on_disk, buffered. cbn [fst snd]. rewrite F1, F2, H2, H3.
        destruct (raise_in_try_line e f) as [->|[e' ->]]; cbn;
          (split; [done|]; split; [lia|]; split; [lia|]; intros _; split; [done|lia]). }
      destruct (debug_mode a).
      * cbn. split; [done|]. split; [lia|]. split; [lia|]. intros _. split; [done|].
        unfold written, on_disk, buffered. cbn. lia.
      * destruct (wm a) as [res|]; [|by apply Hraise].
        destruct (config_dict a !! "property") as [p|]; [|by apply Hraise].
        destruct (query env (queries w)) as [r|]; [|by apply Hraise].
        destruct (py_float env r) as [x|]; [|by apply Hraise].
        cbn. split; [done|]. split; [lia|]. split; [lia|]. intros _. split; [done|].
        unfold written, on_disk, buffered. cbn. lia.
    + (* L119 *)
      destruct (csvfile f) eqn:Hc.
      * cbn. split; [done|]. split; [lia|]. split; [lia|]. intros _. split; [done|].
        unfold written, on_disk, buffered. cbn. rewrite Hc. cbn. rewrite !length_app. cbn. lia.
      * destruct (raise_in_try_frame (ValueError closed_file) f) as [F1 F2].
        cbn. split; [done|]. split; [lia|]. split; [lia|]. intros _. split; [done|].
        unfold written, on_disk, buffered. cbn. lia.
    + (* L120 *)
      destruct (csvfile f) eqn:Hc.
      * cbn. split; [done|]. split; [lia|]. split; [lia|]. intros _. split; [done|].
        rewrite (written_L120 _ _ _ _ Hc). lia.
      * cbn. split; [done|]. split; [lia|]. split; [lia|]. intros _. split; [done|].
        unfold written, on_disk, buffered. cbn. lia.
    + (* L123 *)
      destruct (plot_window a); cbn; rewrite ?El; cbn;
        (split; [done|]; split; [lia|]; split; [lia|]; intros _; split; [done|];
         unfold written, on_disk, buffered; cbn; lia).
    + (* Lexit *)
      cbn. split; [destruct (csvfile f); done|].
      split; [destruct (csvfile f), pending; cbn; lia|].
      split; [destruct pending; cbn; lia|]. intros _. split; [destruct pending; done|].
      rewrite written_close. destruct pending; cbn; lia.
  - cbn. split; [done|]. split; [lia|]. split; [lia|]. intros Ho. split; [done|].
    unfold written, on_disk, buffered. cbn. lia.
  - unfold interrupt. destruct (at_line f) eqn:El; cbn; rewrite ?El; cbn;
      (split; [done|]; split; [lia|]; split; [lia|];
       first [discriminate | intros _; split; [done|]; unfold written, on_disk, buffered; cbn; lia]).
Qed.

Lemma count_steps_cons x sched :
  count_steps (x :: sched) = ((if is_step x then 1 else 0) + count_steps sched)%nat.
Proof.
  unfold count_steps. cbn [filter list_filter]. destruct (is_step x); reflexivity.
Qed.

Lemma exec_after_stop env a sched : forall s,
  is_set (stop_event s.1) = true ->
  let s' := exec env a sched s in
  is_set (stop_event s'.1) = true /\
  (clock_reads s'.1 + reads_left (at_line s'.2) <= clock_reads s.1 + reads_left (at_line s.2))%nat /\
  (steps_left (at_line s'.2) + count_steps sched <= steps_left (at_line s.2) \/
   steps_left (at_line s'.2) = 0)%nat /\
  (opened (at_line s.2) = true ->
   opened (at_line s'.2) = true /\
   (length (written s') + rows_left (at_line s'.2) <=
    length (written s) + rows_left (at_line s.2))%nat).
Proof.
  induction sched as [|x sched IH]; intros s Hstop; cbv zeta.
  - cbn. split; [done|]. split; [lia|]. split; [left; unfold count_steps; cbn; lia|].
    intros Ho. split; [exact Ho|lia].
  - change (exec env a (x :: sched) s) with (exec env a sched (act env a s x)).
    destruct (act_after_stop env a s x Hstop) as (A1 & A2 & A3 & A4).
    destruct (IH (act env a s x) A1) as (B1 & B2 & B3 & B4).
    split; [done|]. split; [lia|]. split.
    + rewrite count_steps_cons. destruct (is_step x); lia.
    + intros Ho. destruct (A4 Ho) as [A5 A6]. destruct (B4 A5) as [B5 B6].
      split; [done|lia].
Qed.

Lemma steps_left_finished f : steps_left (at_line f) = 0%nat -> finished f = true.
Proof. unfold finished. destruct (at_line f); done. Qed.

Lemma steps_left_le l : (steps_left l <= 10)%nat.
Proof. destruct l; cbn; lia. Qed.

(** C4: once the stop event is set, whatever the point the loop has
    reached, the loop reads the clock at most once more, logs at most one
    more sample, and is over within ten statements. *)
Theorem stop_allows_one_more_tick (env : Env) (a : LoopArgs) (s : World * Frame)
    (sched : list action) :
  is_set (stop_event s.1) = true ->
  let s' := exec env a sched s in
  is_set (stop_event s'.1) = true /\
  (clock_reads s'.1 <= clock_reads s.1 + reads_left (at_line s.2))%nat /\
  (opened (at_line s.2) = true -> (length (samples s') <= length (samples s) + 1)%nat) /\
  ((10 <= count_steps sched)%nat -> finished s'.2 = true).
Proof.
  intros Hstop s'. destruct (exec_after_stop env a sched s Hstop) as (H1 & H2 & H3 & H4).
  fold s' in H1, H2, H3, H4. split; [done|]. split; [lia|]. split.
  - intros Ho. destruct (H4 Ho) as [_ H5]. unfold samples.
    assert (rows_left (at_line s.2) <= 1)%nat by (destruct (at_line s.2); cbn; lia).
    destruct (written s') as [|r' l'], (written s) as [|r l]; cbn in *; lia.
  - intros Hn. apply steps_left_finished. pose proof (steps_left_le (at_line s.2)). lia.
Qed.

(** ** Runs in the laboratory *)

Lemma lab_clock_monotonic env : perf_counter env = lab_clock -> monotonic_clock env.
Proof.
  intros He. unfold monotonic_clock. rewrite He. split.
  - intros n. destruct n as [|[|[|n]]]; reflexivity.
  - intros n m H. destruct n as [|[|[|n]]], m as [|[|[|m]]]; try lia; reflexivity.
Qed.

Lemma lab_random_unit : unit_random lab_env.
Proof. intros n. split; reflexivity. Qed.

Lemma top_random_unit : unit_random top_env.
Proof. intros n. split; reflexivity. Qed.



Lemma unparseable_reply_ends_the_run_witness :
  let s := measurement_loop err_env instr_loop (replicate 7 AStep) instr_world in
  let raised := exec err_env instr_loop [AStep; AStep] s in
  let later := exec err_env instr_loop [AStep; ASetStop; AInterrupt; AStep] raised in
  at_line s.2 = L110 /\ py_float err_env "ERR" = None /\ written s = [header] /\
  at_line raised.2 = Lraised (ValueError "ERR") /\ csvfile raised.2 = None /\
  on_disk raised = written s /\ queries raised.1 = S (queries s.1) /\
  later.2 = raised.2 /\ queries later.1 = queries raised.1.
Proof.
  intros s raised later.
  assert (E1 : at_line s.2 = L110) by (vm_compute; reflexivity).
  assert (E2 : debug_mode instr_loop = false) by reflexivity.
  assert (E3 : wm instr_loop = Some INSTRUMENT_RESOURCE) by reflexivity.
  assert (E4 : config_dict instr_loop !! "property" = Some "WAVelength")
    by (vm_compute; reflexivity).
  assert (E5 : query err_env (queries s.1) = Reply "ERR") by reflexivity.
  assert (E6 : py_float err_env "ERR" = None) by (vm_compute; reflexivity).
  assert (E7 : written s = [header]) by (vm_compute; reflexivity).
  destruct (unparseable_reply_ends_the_run err_env instr_loop s
              INSTRUMENT_RESOURCE "WAVelength" "ERR" [AStep; ASetStop; AInterrupt; AStep]
              E1 E2 E3 E4 E5 E6)
    as (_ & H2 & H3 & H4 & _ & H6 & H7 & _ & H9).
  split; [exact E1|]. split; [exact E6|]. split; [exact E7|].
  split; [exact H2|]. split; [exact H3|]. split; [exact H4|]. split; [exact H6|].
  split; [exact H7|exact H9].
Defined.



Lemma elapsed_time_nonnegative_nondecreasing_witness :
  monotonic_clock lab_env /\
  let s := measurement_loop lab_env lab_loop (replicate 21 AStep) lab_world in
  row_time <$> samples s = [Some 0.125; Some 0.25]%float /\
  (untouched lab_world s \/
   exists times,
     row_time <$> samples s = Some <$> times /\
     Forall (fun t => (0 <=? t)%float = true) times /\
     nondecreasing times = true /\
     (in_tick (at_line s.2) = true ->
      (0 <=? current_time s.2)%float = true /\
      nondecreasing (times ++ [current_time s.2]) = true)).
Proof.
  split; [exact (lab_clock_monotonic lab_env eq_refl)|]. intros s.
  split; [vm_compute; reflexivity|].
  exact (elapsed_time_nonnegative_nondecreasing lab_env lab_loop (replicate 21 AStep) lab_world
           (lab_clock_monotonic lab_env eq_refl)).
Defined.

Lemma synthetic_values_in_closed_range_witness :
  unit_random lab_env /\ debug_mode lab_loop = true /\
  let s := measurement_loop lab_env lab_loop (replicate 21 AStep) lab_world in
  row_value <$> samples s = [Some 550; Some 550]%float /\
  (untouched lab_world s \/
   exists values,
     row_value <$> samples s = Some <$> values /\
     Forall (fun v => in_closed_range v = true) values /\
     (at_line s.2 = L116 \/ at_line s.2 = L119 ->
      in_closed_range (current_wavelength s.2) = true)).
Proof.
  split; [exact lab_random_unit|]. split; [reflexivity|]. intros s.
  split; [vm_compute; reflexivity|].
  exact (synthetic_values_in_closed_range lab_env lab_loop (replicate 21 AStep) lab_world
           lab_random_unit eq_refl).
Defined.

(** [random.random()] can return [1 - 2^-53], and
    [500.0 + 100.0 * (1 - 2^-53)] rounds to 600.0, which the loop logs. *)
Lemma synthetic_value_reaches_600 :
  unit_random top_env /\ top_draw = random_of_bits (2 ^ 53 - 1) /\
  uniform 500 600 top_draw = 600%float /\
  let s := measurement_loop top_env lab_loop (replicate 10 AStep) lab_world in
  row_value <$> samples s = [Some 600%float] /\ in_half_open_range 600 = false.
Proof.
  split; [exact top_random_unit|]. vm_compute. done.
Qed.

Lemma stop_allows_one_more_tick_witness :
  let s := measurement_loop lab_env lab_loop (replicate 7 AStep ++ [ASetStop]) lab_world in
  let s' := exec lab_env lab_loop (replicate 10 AStep) s in
  is_set (stop_event s.1) = true /\ at_line s.2 = L110 /\
  is_set (stop_event s'.1) = true /\
  (clock_reads s'.1 <= clock_reads s.1 + reads_left (at_line s.2))%nat /\
  (length (samples s') <= length (samples s) + 1)%nat /\ finished s'.2 = true /\
  length (samples s') = 1%nat.
Proof.
  intros s s'.
  assert (E1 : is_set (stop_event s.1) = true) by (vm_compute; reflexivity).
  assert (E2 : at_line s.2 = L110) by (vm_compute; reflexivity).
  assert (E3 : opened (at_line s.2) = true) by (rewrite E2; reflexivity).
  assert (E4 : (10 <= count_steps (replicate 10 AStep))%nat) by (vm_compute; lia).
  assert (E5 : length (samples s') = 1%nat) by (vm_compute; reflexivity).
  destruct (stop_allows_one_more_tick lab_env lab_loop s (replicate 10 AStep) E1)
    as (H1 & H2 & H3 & H4).
  split; [exact E1|]. split; [exact E2|]. split; [exact H1|]. split; [exact H2|].
  split; [exact (H3 E3)|]. split; [exact (H4 E4)|exact E5].
Defined.

(** * Further properties of the code *)

(** ** The display window, under every interleaving of additions and refreshes *)


Lemma py_slice_from_nonneg {A} (l : list A) (start : Z) :
  (0 <= start)%Z -> py_slice_from l start = drop (Z.to_nat start) l.
Proof.
  intros H. unfold py_slice_from. destruct (Z.ltb_spec start 0); [lia|].
  destruct (Z.le_ge_cases start (Z.of_nat (length l))) as [Hle|Hge].
  - rewrite Z.min_l by lia. done.
  - rewrite Z.min_r by lia. rewrite Nat2Z.id.
    rewrite !drop_ge; [done|lia|lia].
Qed.





(** X2: a [max_points] that is not positive does not empty the drawing:
    [l[-0:]] is the whole list, so with [max_points = 0] a refresh draws
    every point; with [max_points = -j] the slice is [l[j:]], every point
    but the first [j]. *)
Theorem nonpositive_max_points_drops_oldest (mp : Z) (pts : list (float * float)) :
  (mp <= 0)%Z -> (0 < length pts)%nat ->
  curve (update_plot (add_all (PlotWindow_init mp) pts)) =
  (drop (Z.to_nat (- mp)) (fst <$> pts), drop (Z.to_nat (- mp)) (snd <$> pts)).
Proof.
  intros Hmp Hn.
  destruct (add_all_fields (PlotWindow_init mp) pts) as (H1 & H2 & H3 & H4).
  cbn in H1, H2, H3. unfold update_plot. rewrite H1, H2, H3, length_fmap.
  destruct (Nat.ltb_spec 0 (length pts)) as [_|]; [|lia].
  cbn [curve]. rewrite !py_slice_from_nonneg by lia. done.
Qed.

Lemma nonpositive_max_points_drops_oldest_witness :
  curve (update_plot (add_all (PlotWindow_init 0) three_points)) =
    ([0.25; 0.5; 0.75], [532.25; 532.5; 532.75])%float /\
  curve (update_plot (add_all (PlotWindow_init (-2)) three_points)) =
    ([0.75], [532.75])%float.
Proof.
  split.
  - exact (nonpositive_max_points_drops_oldest 0 three_points ltac:(lia) ltac:(cbn; lia)).
  - exact (nonpositive_max_points_drops_oldest (-2) three_points ltac:(lia) ltac:(cbn; lia)).
Defined.

(** ** The log is only ever appended to *)

Lemma raise_in_try_opened e f : opened (at_line (raise_in_try e f)) = true.
Proof. destruct e; done. Qed.

Lemma raise_in_try_file e f : output_file (raise_in_try e f) = output_file f.
Proof. destruct e; done. Qed.

Lemma raise_in_try_csv e f : csvfile (raise_in_try e f) = csvfile f.
Proof. destruct e; done. Qed.

Lemma written_same w f w' f' :
  fs w' = fs w -> output_file f' = output_file f -> csvfile f' = csvfile f ->
  written (w', f') = written (w, f).
Proof.
  intros H1 H2 H3. unfold written, on_disk, buffered. cbn. rewrite H1, H2, H3. done.
Qed.

Lemma step_raise_kept (w w' : World) (f : Frame) e :
  fs w' = fs w ->
  opened (at_line (w', raise_in_try e f).2) = true /\
  output_file (w', raise_in_try e f).2 = output_file f /\
  exists rows, written (w', raise_in_try e f) = written (w, f) ++ rows.
Proof.
  intros H. cbn [fst snd]. split; [apply raise_in_try_opened|].
  split; [apply raise_in_try_file|]. exists []. rewrite app_nil_r.
  apply written_same; [done|apply raise_in_try_file|apply raise_in_try_csv].
Qed.

Ltac log_kept :=
  cbv zeta; cbn [fst snd];
  split; [first [reflexivity | by destruct (is_set _)]|];
  split; [reflexivity|];
  exists []; rewrite app_nil_r; apply written_same; reflexivity.

Lemma act_appends env a s x :
  opened (at_line s.2) = true ->
  opened (at_line (act env a s x).2) = true /\
  output_file (act env a s x).2 = output_file s.2 /\
  exists rows, written (act env a s x) = written s ++ rows.
Proof.
  destruct s as [w f]. cbn [fst snd]. intros Ho.
  destruct x; cbn [act fst snd].
  - unfold step. destruct (at_line f) eqn:El; try discriminate Ho.
    + (* L100 *)
      destruct (csvfile f) as [buf|] eqn:Hc.
      * cbn [fst snd]. split; [done|]. split; [done|]. exists [header].
        apply (written_L119 w f L101 buf header Hc).
      * log_kept.
    + log_kept.
    + log_kept.
    + log_kept.
    + (* L110 *)
      destruct (debug_mode a); [log_kept|].
      destruct (wm a) as [res|]; [|by apply step_raise_kept].
      destruct (config_dict a !! "property") as [p|]; [|by apply step_raise_kept].
      destruct (query env (queries w)) as [r|]; [|by apply step_raise_kept].
      destruct (py_float env r) as [x|]; [log_kept|by apply step_raise_kept].
    + log_kept.
    + (* L119 *)
      destruct (csvfile f) as [buf|] eqn:Hc; [|by apply step_raise_kept].
      cbn [fst snd]. split; [done|]. split; [done|].
      eexists. apply (written_L119 w f L120 buf _ Hc).
    + (* L120 *)
      destruct (csvfile f) as [buf|] eqn:Hc; [|by apply step_raise_kept].
      cbn [fst snd]. split; [done|]. split; [done|]. exists []. rewrite app_nil_r.
      apply (written_L120 w f L123 buf Hc).
    + destruct (plot_window a); log_kept.
    + log_kept.
    + log_kept.
    + (* Lexit *)
      cbn [fst snd]. split; [by destruct pending|]. split; [done|].
      exists []. rewrite app_nil_r. apply written_close.
    + log_kept.
    + cbn [fst snd]. rewrite El. split; [done|]. split; [done|]. exists [].
      by rewrite app_nil_r.
    + cbn [fst snd]. rewrite El. split; [done|]. split; [done|]. exists [].
      by rewrite app_nil_r.
  - cbn [fst snd]. split; [exact Ho|]. split; [done|]. exists []. rewrite app_nil_r.
    by apply written_same.
  - unfold interrupt. destruct (at_line f) eqn:El; try discriminate Ho; try log_kept.
    all: cbn [fst snd]; rewrite ?El; split; [done|]; split; [done|]; exists [];
      by rewrite app_nil_r.
Qed.

Lemma exec_appends env a sched : forall s,
  opened (at_line s.2) = true ->
  opened (at_line (exec env a sched s).2) = true /\
  output_file (exec env a sched s).2 = output_file s.2 /\
  written s `prefix_of` written (exec env a sched s).
Proof.
  induction sched as [|x sched IH]; intros s Ho.
  - cbn. split; [done|]. split; [done|]. exists []. by rewrite app_nil_r.
  - rewrite exec_cons.
    destruct (act_appends env a s x Ho) as (A1 & A2 & r1 & A3).
    destruct (IH (act env a s x) A1) as (B1 & B2 & r2 & B3).
    split; [done|]. split; [congruence|]. exists (r1 ++ r2).
    rewrite B3, A3, app_assoc. done.
Qed.

(** X3: once the log is open its path is fixed, and from then on every
    statement, interruption or exception leaves the rows written so far
    in place: the later log starts with the earlier one. *)
Theorem log_is_append_only (env : Env) (a : LoopArgs) (sched : list action)
    (s : World * Frame) :
  opened (at_line s.2) = true ->
  let s' := exec env a sched s in
  opened (at_line s'.2) = true /\
  output_file s'.2 = output_file s.2 /\
  written s `prefix_of` written s'.
Proof. intros Ho s'. by apply exec_appends. Qed.

Lemma log_is_append_only_witness :
  let s := measurement_loop lab_env lab_loop (replicate 5 AStep) lab_world in
  let s' := exec lab_env lab_loop (replicate 5 AStep ++ [AInterrupt; AStep]) s in
  at_line s.2 = L107 /\ written s = [header] /\
  written s' = [header; [CFloat 0.125; CFloat 550]]%float /\
  written s `prefix_of` written s'.
Proof.
  intros s s'.
  assert (E1 : at_line s.2 = L107) by (vm_compute; reflexivity).
  assert (E2 : opened (at_line s.2) = true) by (rewrite E1; reflexivity).
  assert (E3 : written s = [header]) by (vm_compute; reflexivity).
  assert (E4 : written s' = [header; [CFloat 0.125; CFloat 550]]%float)
    by (vm_compute; reflexivity).
  destruct (log_is_append_only lab_env lab_loop (replicate 5 AStep ++ [AInterrupt; AStep]) s E2)
    as (_ & _ & H).
  split; [exact E1|]. split; [exact E3|]. split; [exact E4|exact H].
Defined.

(** ** The log is closed on every way out *)

Lemma act_outside_with env a s x :
  (outside_with (at_line s.2) = true -> csvfile s.2 = None) ->
  outside_with (at_line (act env a s x).2) = true -> csvfile (act env a s x).2 = None.
Proof.
  destruct s as [w f]. cbn [fst snd]. intros H.
  destruct x; cbn [act fst snd].
  - unfold step. destruct (at_line f) eqn:El; cbn [fst snd];
      repeat case_match; cbn; rewrite ?El; cbn;
      try rewrite raise_in_try_csv;
      try discriminate; try (intros _; by apply H); try done.
    all: try (destruct pending; cbn; done).
    all: intros Hx; exfalso; revert Hx;
      match goal with |- context [raise_in_try ?e ?f] => destruct e end; cbn; done.
  - exact H.
  - unfold interrupt. destruct (at_line f) eqn:El; cbn; rewrite ?El; cbn;
      try discriminate; try (intros _; by apply H); try done.
Qed.

Lemma exec_outside_with env a sched : forall s,
  (outside_with (at_line s.2) = true -> csvfile s.2 = None) ->
  outside_with (at_line (exec env a sched s).2) = true ->
  csvfile (exec env a sched s).2 = None.
Proof.
  induction sched as [|x sched IH]; intros s H; [exact H|].
  rewrite exec_cons. apply IH. by apply act_outside_with.
Qed.

(** X4: however the loop ends (stop event, interruption caught or not, an
    exception of the instrument or of the file), it ends with its file
    closed, and every row that was written at any earlier moment of the
    run is on disk. *)
Theorem log_closed_on_every_exit (env : Env) (a : LoopArgs) (sched1 sched2 : list action)
    (w : World) :
  let s1 := measurement_loop env a sched1 w in
  let s2 := exec env a sched2 s1 in
  finished s2.2 = true ->
  csvfile s2.2 = None /\
  (opened (at_line s1.2) = true -> written s1 `prefix_of` on_disk s2).
Proof.
  intros s1 s2 Hf.
  assert (Hc : csvfile s2.2 = None).
  { subst s2 s1. unfold measurement_loop. rewrite <- exec_app.
    apply exec_outside_with; [done|].
    rewrite exec_app. unfold finished in Hf. unfold outside_with.
    fold (measurement_loop env a sched1 w).
    destruct (at_line _); done. }
  split; [exact Hc|]. intros Ho.
  destruct (exec_appends env a sched2 s1 Ho) as (_ & _ & H).
  fold s2 in H. unfold written at 2 in H. unfold buffered in H. rewrite Hc in H.
  cbn in H. rewrite app_nil_r in H. exact H.
Qed.

Lemma log_closed_on_every_exit_witness :
  let s1 := measurement_loop lab_env lab_loop (replicate 10 AStep) lab_world in
  let s2 := exec lab_env lab_loop [AInterrupt; AStep; AStep; AStep] s1 in
  at_line s1.2 = L120 /\ on_disk s1 = [] /\
  written s1 = [header; [CFloat 0.125; CFloat 550]]%float /\
  finished s2.2 = true /\ csvfile s2.2 = None /\
  on_disk s2 = [header; [CFloat 0.125; CFloat 550]]%float /\
  written s1 `prefix_of` on_disk s2.
Proof.
  intros s1 s2.
  assert (E1 : at_line s1.2 = L120) by (vm_compute; reflexivity).
  assert (E2 : opened (at_line s1.2) = true) by (rewrite E1; reflexivity).
  assert (E3 : on_disk s1 = []) by (vm_compute; reflexivity).
  assert (E4 : written s1 = [header; [CFloat 0.125; CFloat 550]]%float)
    by (vm_compute; reflexivity).
  assert (E5 : finished s2.2 = true) by (vm_compute; reflexivity).
  assert (E6 : on_disk s2 = [header; [CFloat 0.125; CFloat 550]]%float)
    by (vm_compute; reflexivity).
  destruct (log_closed_on_every_exit lab_env lab_loop (replicate 10 AStep)
              [AInterrupt; AStep; AStep; AStep] lab_world E5) as [H1 H2].
  split; [exact E1|]. split; [exact E3|]. split; [exact E4|]. split; [exact E5|].
  split; [exact H1|]. split; [exact E6|exact (H2 E2)].
Defined.

(** ** The loop touches its own log and nothing else *)

Lemma act_frame env a (P : string -> Prop) w0 s x :
  (forall d, config_dict a !! "readout_dir" = Some d -> ~ P (path_join d log_name)) ->
  let ok (s : World * Frame) :=
    dirs (fs s.1) = dirs (fs w0) /\
    (forall q, P q -> files (fs s.1) !! q = files (fs w0) !! q) /\
    (csvfile s.2 = None \/ ~ P (output_file s.2)) /\
    (at_line s.2 = L98 -> ~ P (output_file s.2)) in
  ok s -> ok (act env a s x).
Proof.
  intros HP ok. subst ok. cbv beta. destruct s as [w f]. cbn [fst snd].
  intros (H1 & H2 & H3 & H4).
  assert (Hflush : forall buf l c, csvfile f = Some buf ->
    dirs (fs (set_fs (flush_rows (fs w) (output_file f) buf) w)) = dirs (fs w0) /\
    (forall q, P q ->
       files (fs (set_fs (flush_rows (fs w) (output_file f) buf) w)) !! q = files (fs w0) !! q) /\
    (csvfile (goto l (set_csvfile c f)) = None \/ ~ P (output_file (goto l (set_csvfile c f)))) /\
    (at_line (goto l (set_csvfile c f)) = L98 -> ~ P (output_file (goto l (set_csvfile c f))))).
  { intros buf l c Hc. destruct H3 as [H3|H3]; [congruence|]. cbn.
    split; [done|]. split; [|split; [by right|done]].
    intros q Hq. rewrite lookup_insert_ne; [by apply H2|]. intros Heq. subst q. done. }
  assert (Hraise : forall e w', fs w' = fs w ->
    dirs (fs w') = dirs (fs w0) /\
    (forall q, P q -> files (fs w') !! q = files (fs w0) !! q) /\
    (csvfile (raise_in_try e f) = None \/ ~ P (output_file (raise_in_try e f))) /\
    (at_line (raise_in_try e f) = L98 -> ~ P (output_file (raise_in_try e f)))).
  { intros e w' ->. rewrite raise_in_try_csv, raise_in_try_file.
    split; [done|]. split; [done|]. split; [done|]. destruct e; cbn; done. }
  assert (Hsame : forall w' l, fs w' = fs w -> l <> L98 ->
    dirs (fs w') = dirs (fs w0) /\
    (forall q, P q -> files (fs w') !! q = files (fs w0) !! q) /\
    (csvfile (goto l f) = None \/ ~ P (output_file (goto l f))) /\
    (at_line (goto l f) = L98 -> ~ P (output_file (goto l f)))).
  { intros w' l -> Hl. cbn. done. }
  destruct x; cbn [act fst snd].
  - unfold step. destruct (at_line f) eqn:El; cbn [fst snd].
    + by apply Hsame.
    + destruct (config_dict a !! "readout_dir") as [d|] eqn:Hd; cbn.
      * split; [done|]. split; [done|]. split; [|intros _; by apply HP].
        right. by apply HP.
      * by apply Hsame.
    + unfold open_w. destruct (bool_decide _); cbn.
      * split; [done|]. split; [|split; [right; by apply H4|done]].
        intros q Hq. rewrite lookup_insert_ne; [by apply H2|]. intros Heq. subst q.
        by apply H4.
      * by apply Hsame.
    + destruct (csvfile f) as [buf|] eqn:Hc; cbn.
      * split; [done|]. split; [done|]. split; [|done].
        destruct H3 as [H3|H3]; [congruence|by right].
      * by apply Hsame.
    + by apply Hsame.
    + apply Hsame; [done|]. by destruct (is_set _).
    + by apply Hsame.
    + destruct (debug_mode a); [by apply Hsame|].
      destruct (wm a) as [res|]; [|by apply Hraise].
      destruct (config_dict a !! "property") as [p|]; [|by apply Hraise].
      cbv zeta. destruct (query env (queries w)) as [r|]; [|by apply Hraise].
      destruct (py_float env r) as [v|]; [by apply Hsame|by apply Hraise].
    + by apply Hsame.
    + destruct (csvfile f) as [buf|] eqn:Hc; [|by apply Hraise]. cbn.
      split; [done|]. split; [done|]. split; [|done].
      destruct H3 as [H3|H3]; [congruence|by right].
    + destruct (csvfile f) as [buf|] eqn:Hc; [|by apply Hraise].
      by apply Hflush.
    + destruct (plot_window a); by apply Hsame.
    + by apply Hsame.
    + by apply Hsame.
    + destruct (csvfile f) as [buf|] eqn:Hc.
      * by apply Hflush.
      * cbn. split; [done|]. split; [done|]. split; [by left|]. by destruct pending.
    + by apply Hsame.
    + rewrite El. done.
    + rewrite El. done.
  - cbn. done.
  - unfold interrupt. destruct (at_line f) eqn:El; try (by apply Hsame).
    all: cbn; rewrite ?El; done.
Qed.

Lemma exec_frame env a (P : string -> Prop) w0 sched : forall s,
  (forall d, config_dict a !! "readout_dir" = Some d -> ~ P (path_join d log_name)) ->
  (dirs (fs s.1) = dirs (fs w0) /\
   (forall q, P q -> files (fs s.1) !! q = files (fs w0) !! q) /\
   (csvfile s.2 = None \/ ~ P (output_file s.2)) /\
   (at_line s.2 = L98 -> ~ P (output_file s.2))) ->
  dirs (fs (exec env a sched s).1) = dirs (fs w0) /\
  (forall q, P q -> files (fs (exec env a sched s).1) !! q = files (fs w0) !! q).
Proof.
  induction sched as [|x sched IH]; intros s HP H.
  - cbn. destruct H as (H1 & H2 & _). done.
  - rewrite exec_cons. apply IH; [done|].
    by apply (act_frame env a P w0 s x HP).
Qed.

(** X5: under every schedule the loop creates no directory and leaves every
    file alone but the one it logs to,
    [<readout_dir>/wavemeter_readout.csv]; with no [readout_dir] in the
    configuration it changes no file at all. *)
Theorem loop_touches_only_its_log (env : Env) (a : LoopArgs) (sched : list action)
    (w : World) :
  let s := measurement_loop env a sched w in
  dirs (fs s.1) = dirs (fs w) /\
  (forall q,
     (forall d, config_dict a !! "readout_dir" = Some d -> q <> path_join d log_name) ->
     files (fs s.1) !! q = files (fs w) !! q) /\
  (config_dict a !! "readout_dir" = None -> fs s.1 = fs w).
Proof.
  intros s. subst s. unfold measurement_loop.
  set (P := fun q : string =>
         forall d, config_dict a !! "readout_dir" = Some d -> q <> path_join d log_name).
  destruct (exec_frame env a P w sched (w, Frame_init)) as [H1 H2].
  { intros d Hd HP. by apply (HP d Hd). }
  { cbn. split; [done|]. split; [done|]. split; [by left|done]. }
  split; [exact H1|]. split; [exact H2|].
  intros Hn. destruct (fs (exec env a sched (w, Frame_init)).1) as [ds fl] eqn:E.
  destruct (fs w) as [ds0 fl0] eqn:E0. cbn in H1, H2. subst ds0. f_equal.
  apply map_eq. intros q. apply H2. intros d Hd. congruence.
Qed.

(** ** What the loop asks of the instrument and of the random generator *)

Lemma raise_in_try_world_kept (e : exn) (f : Frame) (w : World) :
  (w, raise_in_try e f).1 = w.
Proof. done. Qed.

Lemma act_traffic env a s x :
  let s' := act env a s x in
  (queries s.1 <= queries s'.1)%nat /\
  (debug_mode a = true -> bus s'.1 = bus s.1 /\ queries s'.1 = queries s.1) /\
  (debug_mode a = false -> random_draws s'.1 = random_draws s.1) /\
  (config_dict a !! "property" = None -> bus s'.1 = bus s.1 /\ queries s'.1 = queries s.1) /\
  (forall p, config_dict a !! "property" = Some p ->
     bus s'.1 = bus s.1 ++ replicate (queries s'.1 - queries s.1) (measure_query p)).
Proof.
  destruct s as [w f]. cbv zeta. cbn [fst snd].
  assert (Hsame : forall w' : World,
    bus w' = bus w -> queries w' = queries w -> random_draws w' = random_draws w ->
    (queries w <= queries w')%nat /\
    (debug_mode a = true -> bus w' = bus w /\ queries w' = queries w) /\
    (debug_mode a = false -> random_draws w' = random_draws w) /\
    (config_dict a !! "property" = None -> bus w' = bus w /\ queries w' = queries w) /\
    (forall p, config_dict a !! "property" = Some p ->
       bus w' = bus w ++ replicate (queries w' - queries w) (measure_query p))).
  { intros w' -> -> ->. split; [lia|]. split; [done|]. split; [done|]. split; [done|].
    intros p _. rewrite Nat.sub_diag. cbn. by rewrite app_nil_r. }
  destruct x; cbn [act fst snd].
  - unfold step. destruct (at_line f) eqn:El; cbn [fst snd];
      try (by apply Hsame).
    + destruct (config_dict a !! "readout_dir"); by apply Hsame.
    + destruct (open_w (fs w) (output_file f)); by apply Hsame.
    + destruct (csvfile f); by apply Hsame.
    + destruct (debug_mode a) eqn:Hd.
      * cbn. split; [lia|]. split; [done|]. split; [done|]. split; [done|].
        intros p _. rewrite Nat.sub_diag. cbn. by rewrite app_nil_r.
      * destruct (wm a) as [res|]; [|by apply Hsame].
        destruct (config_dict a !! "property") as [p|] eqn:Hp; [|by apply Hsame].
        cbv zeta.
        assert (Hask :
          (queries w <= queries (wm_ask (":MEASure:" +:+ p +:+ "?") w))%nat /\
          (false = true -> bus (wm_ask (":MEASure:" +:+ p +:+ "?") w) = bus w /\
                           queries (wm_ask (":MEASure:" +:+ p +:+ "?") w) = queries w) /\
          (false = false -> random_draws (wm_ask (":MEASure:" +:+ p +:+ "?") w) = random_draws w) /\
          (Some p = None -> bus (wm_ask (":MEASure:" +:+ p +:+ "?") w) = bus w /\
                            queries (wm_ask (":MEASure:" +:+ p +:+ "?") w) = queries w) /\
          (forall p0, Some p = Some p0 ->
             bus (wm_ask (":MEASure:" +:+ p +:+ "?") w) =
             bus w ++ replicate (queries (wm_ask (":MEASure:" +:+ p +:+ "?") w) - queries w)
                        (measure_query p0))).
        { cbn. split; [lia|]. split; [done|]. split; [done|]. split; [done|].
          intros p0 [= <-]. replace (S (queries w) - queries w)%nat with 1%nat by lia.
          done. }
        destruct (query env (queries w)) as [r|]; [|exact Hask].
        destruct (py_float env r) as [v|]; exact Hask.
    + destruct (csvfile f); by apply Hsame.
    + destruct (csvfile f); by apply Hsame.
    + destruct (plot_window a); by apply Hsame.
    + destruct (csvfile f); by apply Hsame.
  - by apply Hsame.
  - by apply Hsame.
Qed.

Lemma exec_traffic env a sched : forall s,
  let s' := exec env a sched s in
  (queries s.1 <= queries s'.1)%nat /\
  (debug_mode a = true -> bus s'.1 = bus s.1 /\ queries s'.1 = queries s.1) /\
  (debug_mode a = false -> random_draws s'.1 = random_draws s.1) /\
  (config_dict a !! "property" = None -> bus s'.1 = bus s.1 /\ queries s'.1 = queries s.1) /\
  (forall p, config_dict a !! "property" = Some p ->
     bus s'.1 = bus s.1 ++ replicate (queries s'.1 - queries s.1) (measure_query p)).
Proof.
  induction sched as [|x sched IH]; intros s; cbv zeta.
  - cbn. split; [lia|]. split; [done|]. split; [done|]. split; [done|].
    intros p _. rewrite Nat.sub_diag. cbn. by rewrite app_nil_r.
  - rewrite exec_cons.
    destruct (act_traffic env a s x) as (A1 & A2 & A3 & A4 & A5).
    destruct (IH (act env a s x)) as (B1 & B2 & B3 & B4 & B5).
    split; [lia|]. split; [|split; [|split]].
    + intros Hd. destruct (A2 Hd) as [<- <-]. by apply B2.
    + intros Hd. rewrite <- (A3 Hd). by apply B3.
    + intros Hp. destruct (A4 Hp) as [<- <-]. by apply B4.
    + intros p Hp. rewrite (B5 p Hp), (A5 p Hp), <- app_assoc, <- replicate_add.
      do 2 f_equal. lia.
Qed.

(** X6: in synthetic mode the loop sends nothing to the instrument; with an
    instrument it never draws a random number, and everything it sends is
    the one query [:MEASure:<property>?], once per [wm.query] call; with no
    [property] in the configuration it sends nothing. *)
Theorem loop_traffic (env : Env) (a : LoopArgs) (sched : list action) (s : World * Frame) :
  let s' := exec env a sched s in
  (if debug_mode a
   then bus s'.1 = bus s.1 /\ queries s'.1 = queries s.1
   else random_draws s'.1 = random_draws s.1) /\
  match config_dict a !! "property" with
  | Some p => bus s'.1 = bus s.1 ++ replicate (queries s'.1 - queries s.1) (measure_query p)
  | None => bus s'.1 = bus s.1
  end.
Proof.
  intros s'. destruct (exec_traffic env a sched s) as (_ & H2 & H3 & H4 & H5).
  fold s' in H2, H3, H4, H5. split.
  - destruct (debug_mode a); [by apply H2|by apply H3].
  - destruct (config_dict a !! "property") as [p|]; [by apply H5|by apply H4].
Qed.

(** ** Failures before the log is open *)

(** X7: with no [readout_dir] in the configuration, line 96 raises a
    [KeyError]: the loop is over after its second statement, having read
    the clock once, printed nothing and created no file. *)
Theorem missing_readout_dir_raises (env : Env) (a : LoopArgs) (w : World) (k : nat) :
  config_dict a !! "readout_dir" = None ->
  let s := measurement_loop env a (replicate (2 + k) AStep) w in
  at_line s.2 = Lraised (KeyError "readout_dir") /\
  s.1 = clock_read w /\ csvfile s.2 = None.
Proof.
  intros Hd s. subst s. unfold measurement_loop.
  change (replicate (2 + k) AStep) with (AStep :: AStep :: replicate k AStep).
  run_step. rewrite exec_step.
  replace (step env a (clock_read w) _) with
    (clock_read w,
     goto (Lraised (KeyError "readout_dir"))
          (goto L96 (set_t_start (perf_counter env (clock_reads w)) Frame_init))).
  2:{ unfold step. cbn [at_line goto set_t_start Frame_init]. rewrite Hd. done. }
  rewrite exec_finished by reflexivity. done.
Qed.


Lemma missing_readout_dir_raises_witness :
  let s := measurement_loop lab_env bare_loop (replicate (2 + 3) AStep) lab_world in
  config_dict bare_loop !! "readout_dir" = None /\
  at_line s.2 = Lraised (KeyError "readout_dir") /\ fs s.1 = fs lab_world.
Proof.
  intros s.
  assert (E1 : config_dict bare_loop !! "readout_dir" = None) by (vm_compute; reflexivity).
  destruct (missing_readout_dir_raises lab_env bare_loop lab_world 3 E1) as (H1 & H2 & _).
  split; [exact E1|]. split; [exact H1|]. fold s in H2. rewrite H2. reflexivity.
Defined.



(** ** Interruptions and instrument failures *)

(** X9: a [KeyboardInterrupt] that arrives while the loop is in its [while]
    block is caught at line 128: the handler prints its message and sets
    the stop event, the [with] block closes the file with every written
    row on disk, and the function returns after its last message. *)
Theorem interrupt_in_loop_is_caught (env : Env) (a : LoopArgs) (s : World * Frame) :
  in_loop (at_line s.2) = true ->
  let s' := exec env a [AInterrupt; AStep; AStep; AStep] s in
  at_line s'.2 = Ldone /\
  is_set (stop_event s'.1) = true /\
  csvfile s'.2 = None /\
  on_disk s' = written s /\
  stdout s'.1 = stdout s.1 ++ [Text (nl +:+ "Measurement stopped by user.");
                               Text (nl +:+ "Measurement loop exiting...")].
Proof.
  intros Hl s'. subst s'. destruct s as [w f]. cbn [fst snd] in *.
  rewrite exec_cons. cbn [act fst snd].
  assert (Hi : interrupt f = goto L128 f).
  { unfold interrupt. destruct (at_line f); try discriminate Hl; done. }
  rewrite Hi. run_step. run_step. run_step. cbn [exec fold_left fst snd].
  cbn [at_line goto set_csvfile csvfile].
  split; [done|]. split; [destruct (csvfile f); done|]. split; [done|]. split.
  - unfold on_disk, written, on_disk, buffered. cbn.
    destruct (csvfile f) as [buf|]; cbn.
    + by rewrite lookup_insert_eq.
    + by rewrite app_nil_r.
  - destruct (csvfile f); cbn; by rewrite <- app_assoc.
Qed.

Lemma interrupt_in_loop_is_caught_witness :
  let s := measurement_loop lab_env lab_loop (replicate 10 AStep) lab_world in
  let s' := exec lab_env lab_loop [AInterrupt; AStep; AStep; AStep] s in
  at_line s.2 = L120 /\ is_set (stop_event s.1) = false /\
  written s = [header; [CFloat 0.125; CFloat 550]]%float /\
  at_line s'.2 = Ldone /\ is_set (stop_event s'.1) = true /\
  on_disk s' = written s.
Proof.
  intros s s'.
  assert (E1 : at_line s.2 = L120) by (vm_compute; reflexivity).
  assert (E2 : in_loop (at_line s.2) = true) by (rewrite E1; reflexivity).
  assert (E3 : is_set (stop_event s.1) = false) by (vm_compute; reflexivity).
  assert (E4 : written s = [header; [CFloat 0.125; CFloat 550]]%float)
    by (vm_compute; reflexivity).
  destruct (interrupt_in_loop_is_caught lab_env lab_loop s E2) as (H1 & H2 & _ & H4 & _).
  split; [exact E1|]. split; [exact E3|]. split; [exact E4|].
  split; [exact H1|]. split; [exact H2|exact H4].
Defined.

(** X10: a [KeyboardInterrupt] that arrives inside the [with] block but before
    the [try] (lines 100 to 104) has no handler: the file is closed with
    what was written, the exception leaves the function, the closing
    message is not printed and the loop itself does not set the stop
    event. *)
Theorem interrupt_before_try_escapes (env : Env) (a : LoopArgs) (s : World * Frame)
    (sched : list action) :
  at_line s.2 = L100 \/ at_line s.2 = L101 ->
  let raised := exec env a [AInterrupt; AStep] s in
  let later := exec env a sched raised in
  at_line raised.2 = Lraised KeyboardInterrupt /\
  csvfile raised.2 = None /\
  on_disk raised = written s /\
  stop_event raised.1 = stop_event s.1 /\
  stdout raised.1 = stdout s.1 /\
  later.2 = raised.2 /\ fs later.1 = fs raised.1 /\ stdout later.1 = stdout raised.1.
Proof.
  intros Hl raised later. subst later raised. destruct s as [w f]. cbn [fst snd] in *.
  rewrite exec_cons. cbn [act fst snd].
  assert (Hi : interrupt f = goto (Lexit (Some KeyboardInterrupt)) f).
  { unfold interrupt. destruct Hl as [-> | ->]; done. }
  rewrite Hi. run_step. cbn [exec fold_left].
  set (w1 := match csvfile f with Some _ => _ | None => _ end).
  set (f1 := goto (Lraised KeyboardInterrupt) _).
  destruct (exec_raised env a sched w1 f1 KeyboardInterrupt eq_refl) as (I1 & I2 & _ & _ & I5).
  rewrite I1, I2, I5. subst w1 f1.
  split; [done|]. split; [done|]. split.
  { unfold on_disk, written, on_disk, buffered. cbn.
    destruct (csvfile f) as [buf|]; cbn.
    - by rewrite lookup_insert_eq.
    - by rewrite app_nil_r. }
  split; [by destruct (csvfile f)|]. split; [by destruct (csvfile f)|]. done.
Qed.

Lemma interrupt_before_try_escapes_witness :
  let s := measurement_loop lab_env lab_loop (replicate 4 AStep) lab_world in
  let raised := exec lab_env lab_loop [AInterrupt; AStep] s in
  at_line s.2 = L101 /\ written s = [header] /\
  at_line raised.2 = Lraised KeyboardInterrupt /\ on_disk raised = written s /\
  is_set (stop_event raised.1) = false.
Proof.
  intros s raised.
  assert (E1 : at_line s.2 = L101) by (vm_compute; reflexivity).
  assert (E4 : written s = [header]) by (vm_compute; reflexivity).
  assert (E6 : is_set (stop_event raised.1) = false) by (vm_compute; reflexivity).
  destruct (interrupt_before_try_escapes lab_env lab_loop s [AStep; AStep]
              (or_intror E1)) as (H1 & _ & H3 & _).
  split; [exact E1|]. split; [exact E4|]. split; [exact H1|]. split; [exact H3|exact E6].
Defined.

(** X11: a [wm.query] that raises [VisaIOError] (the instrument does not answer
    in time) is not caught by the loop and not retried: the [with] block
    closes the log with every written row on disk, the exception leaves the
    function, the stop event is left as it was, and whatever happens next
    the loop asks nothing more. *)
Theorem query_timeout_ends_the_run (env : Env) (a : LoopArgs) (s : World * Frame)
    (res p : string) (sched : list action) :
  at_line s.2 = L110 -> debug_mode a = false -> wm a = Some res ->
  config_dict a !! "property" = Some p ->
  query env (queries s.1) = Timeout ->
  let raised := exec env a [AStep; AStep] s in
  let later := exec env a sched raised in
  at_line raised.2 = Lraised VisaIOError /\
  csvfile raised.2 = None /\
  on_disk raised = written s /\
  stop_event raised.1 = stop_event s.1 /\
  queries raised.1 = S (queries s.1) /\
  bus raised.1 = bus s.1 ++ [measure_query p] /\
  later.2 = raised.2 /\ fs later.1 = fs raised.1 /\ queries later.1 = queries raised.1.
Proof.
  intros H1 H2 H3 H4 H5 raised later. subst later raised.
  destruct s as [w f]. cbn [fst snd] in *.
  rewrite exec_step.
  replace (step env a w f) with
    (wm_ask (":MEASure:" +:+ p +:+ "?") w, goto (Lexit (Some VisaIOError)) f)
    by (unfold step; rewrite H1, H2, H3, H4, H5; done).
  run_step. cbn [exec fold_left].
  set (w1 := match csvfile _ with Some _ => _ | None => _ end).
  set (f1 := goto (Lraised VisaIOError) _).
  destruct (exec_raised env a sched w1 f1 VisaIOError eq_refl) as (I1 & I2 & I3 & _ & _).
  rewrite I1, I2, I3. subst w1 f1.
  split; [done|]. split; [done|]. split.
  { unfold on_disk, written, on_disk, buffered. cbn.
    destruct (csvfile f) as [buf|]; cbn.
    - by rewrite lookup_insert_eq.
    - by rewrite app_nil_r. }
  split; [by destruct (csvfile f)|]. split; [by destruct (csvfile f)|].
  split; [by destruct (csvfile f)|]. done.
Qed.

Lemma query_timeout_ends_the_run_witness :
  let s := measurement_loop mute_env instr_loop (replicate 7 AStep) instr_world in
  let raised := exec mute_env instr_loop [AStep; AStep] s in
  at_line s.2 = L110 /\ query mute_env (queries s.1) = Timeout /\
  written s = [header] /\
  at_line raised.2 = Lraised VisaIOError /\ on_disk raised = written s /\
  queries raised.1 = S (queries s.1).
Proof.
  intros s raised.
  assert (E1 : at_line s.2 = L110) by (vm_compute; reflexivity).
  assert (E2 : debug_mode instr_loop = false) by reflexivity.
  assert (E3 : wm instr_loop = Some INSTRUMENT_RESOURCE) by reflexivity.
  assert (E4 : config_dict instr_loop !! "property" = Some "WAVelength")
    by (vm_compute; reflexivity).
  assert (E5 : query mute_env (queries s.1) = Timeout) by reflexivity.
  assert (E7 : written s = [header]) by (vm_compute; reflexivity).
  destruct (query_timeout_ends_the_run mute_env instr_loop s INSTRUMENT_RESOURCE "WAVelength"
              [AStep; ASetStop] E1 E2 E3 E4 E5)
    as (H1 & _ & H3 & _ & H5 & _).
  split; [exact E1|]. split; [exact E5|]. split; [exact E7|].
  split; [exact H1|]. split; [exact H3|exact H5].
Defined.

(** ** The pairs handed to the window are the samples logged *)















(** A run with a window on the laboratory: two samples logged and handed
    on, a third one written and not yet handed on. *)
Lemma window_is_handed_two_of_three :
  let a := mkLoopArgs None (make_config_dict graph_args lab_dir) true true in
  let s := measurement_loop lab_env a (replicate 27 AStep) lab_world in
  at_line s.2 = L123 /\
  data_signal s.1 = [(0.125, 550); (0.25, 550)]%float /\
  samples s = (sample_row <$> data_signal s.1) ++ [[CFloat 0.5; CFloat 550]]%float.
Proof. vm_compute. done. Qed.

(** ** [main]: what reaches the instrument *)


Lemma config_property args dir :
  make_config_dict args dir !! "property" = Some (property args).
Proof.
  unfold make_config_dict. rewrite !lookup_insert_ne by done. apply lookup_insert_eq.
Qed.


Lemma proc_step_traffic env p e :
  let p' := proc_step env p e in
  thread_args p' = thread_args p /\
  (queries (world p) <= queries (world p'))%nat /\
  (forall a, thread_args p = Some a -> debug_mode a = true ->
     bus (world p') = bus (world p) /\ queries (world p') = queries (world p)) /\
  (forall a prop, thread_args p = Some a -> config_dict a !! "property" = Some prop ->
     bus (world p') =
     bus (world p) ++ replicate (queries (world p') - queries (world p)) (measure_query prop)) /\
  (thread_args p = None ->
     bus (world p') = bus (world p) /\ queries (world p') = queries (world p)).
Proof.
  cbv zeta.
  assert (Hsame : forall p' : Proc,
    thread_args p' = thread_args p -> bus (world p') = bus (world p) ->
    queries (world p') = queries (world p) ->
    thread_args p' = thread_args p /\
    (queries (world p) <= queries (world p'))%nat /\
    (forall a, thread_args p = Some a -> debug_mode a = true ->
       bus (world p') = bus (world p) /\ queries (world p') = queries (world p)) /\
    (forall a prop, thread_args p = Some a -> config_dict a !! "property" = Some prop ->
       bus (world p') =
       bus (world p) ++ replicate (queries (world p') - queries (world p)) (measure_query prop)) /\
    (thread_args p = None ->
       bus (world p') = bus (world p) /\ queries (world p') = queries (world p))).
  { intros p' H1 H2 H3. rewrite H2, H3, Nat.sub_diag. cbn. rewrite app_nil_r.
    split; [done|]. split; [lia|]. done. }
  destruct e; cbn [proc_step].
  - destruct (thread p) as [[a f]|] eqn:Ht; [|by apply Hsame].
    assert (Ha : thread_args p = Some a) by (unfold thread_args; by rewrite Ht).
    rewrite Ha. cbn [world].
    destruct (act_traffic env a (world p, f) AStep) as (A1 & A2 & A3 & A4 & A5).
    cbn [act fst snd] in A1, A2, A3, A4, A5.
    split; [done|]. split; [exact A1|]. split; [|split].
    + intros a' [= <-]. exact A2.
    + intros a' prop [= <-]. apply A5.
    + discriminate.
  - destruct (main_at p); try (by apply Hsame).
    + destruct (if bool_decide _ then _ else _); by apply Hsame.
    + destruct (thread_over p); by apply Hsame.
  - destruct (window p); by apply Hsame.
  - destruct (main_at p); try (by apply Hsame). destruct (window p); by apply Hsame.
  - destruct (window p); [|by apply Hsame].
    destruct (data_signal (world p)) as [|[t v] rest]; by apply Hsame.
  - destruct (window p); by apply Hsame.
Qed.

Lemma run_traffic env sched : forall p,
  let p' := fold_left (proc_step env) sched p in
  thread_args p' = thread_args p /\
  (queries (world p) <= queries (world p'))%nat /\
  (forall a, thread_args p = Some a -> debug_mode a = true ->
     bus (world p') = bus (world p) /\ queries (world p') = queries (world p)) /\
  (forall a prop, thread_args p = Some a -> config_dict a !! "property" = Some prop ->
     bus (world p') =
     bus (world p) ++ replicate (queries (world p') - queries (world p)) (measure_query prop)) /\
  (thread_args p = None ->
     bus (world p') = bus (world p) /\ queries (world p') = queries (world p)).
Proof.
  induction sched as [|e sched IH]; intros p; cbv zeta.
  - cbn. rewrite Nat.sub_diag. cbn. rewrite app_nil_r. split; [done|]. split; [lia|]. done.
  - cbn [fold_left].
    destruct (proc_step_traffic env p e) as (A0 & A1 & A2 & A3 & A4).
    destruct (IH (proc_step env p e)) as (B0 & B1 & B2 & B3 & B4).
    split; [congruence|]. split; [lia|]. split; [|split].
    + intros a Ha Hd. destruct (A2 a Ha Hd) as [<- <-]. apply (B2 a); [congruence|done].
    + intros a prop Ha Hp. rewrite (B3 a prop), (A3 a prop), <- app_assoc, <- replicate_add;
        [|done|done|congruence|done].
      do 2 f_equal. lia.
    + intros Hn. destruct (A4 Hn) as [<- <-]. apply B4. congruence.
Qed.

(** X13: with an instrument that answers, under every schedule, what the
    program sends is the identification query, the four configuration
    commands in the order [configure_wavemeter] writes them (averaging
    before medium), and then nothing but the measurement query, once per
    [wm.query] of the loop. *)
Theorem instrument_sees_setup_then_queries (env : Env) (args : Args) (h : Host)
    (sched : list pevent) (w : World) (idn : string) (fs1 : FileSystem) :
  debug args = false -> open_resource h = Connected idn ->
  makedirs (fs w) (make_readout_dir h) = inl fs1 ->
  let p := main env args h sched w in
  bus (world p) =
  bus w ++ setup_commands args
        ++ replicate (queries (world p) - queries w) (measure_query (property args)).
Proof.
  intros Hd Ho Hm p. subst p. unfold main.
  set (p0 := main_start args h w).
  destruct (run_traffic env sched p0) as (_ & _ & _ & H3 & _).
  assert (E : thread_args p0 =
              Some (mkLoopArgs (Some INSTRUMENT_RESOURCE)
                      (make_config_dict args (make_readout_dir h)) (graph args) (debug args)) /\
              bus (world p0) = bus w ++ setup_commands args /\
              queries (world p0) = queries w).
  { subst p0. unfold main_start. rewrite Hm, Hd, Ho. cbn. rewrite <- !app_assoc. done. }
  destruct E as (E1 & E2 & E3).
  rewrite (H3 _ (property args) E1 (config_property _ _)), E2, E3, <- app_assoc. done.
Qed.

Lemma instrument_sees_setup_then_queries_witness :
  let p := main lab_env default_args host_up (replicate 21 PThread) (World_init lab_fs) in
  queries (world p) = 2%nat /\
  bus (world p) =
  [ "*IDN?"; ":CONFigure:WAVelength"; ":DISPlay:RESolution .001"; ":SENSe:AVERage OFF";
    ":SENSe:MEDium air"; ":MEASure:WAVelength?"; ":MEASure:WAVelength?" ].
Proof.
  intros p.
  assert (E1 : queries (world p) = 2%nat) by (vm_compute; reflexivity).
  assert (E2 : exists fs1, makedirs (fs (World_init lab_fs)) (make_readout_dir host_up) = inl fs1).
  { eexists. vm_compute. reflexivity. }
  destruct E2 as [fs1 E2].
  pose proof (instrument_sees_setup_then_queries lab_env default_args host_up
                (replicate 21 PThread) (World_init lab_fs) "HP,86120B" fs1
                eq_refl eq_refl E2) as H.
  cbv zeta in H. fold p in H. rewrite E1 in H. split; [exact E1|]. rewrite H. reflexivity.
Defined.

Lemma proc_step_wm_open env p e :
  wm_open (proc_step env p e) = wm_open p \/ wm_open (proc_step env p e) = false.
Proof.
  destruct e; cbn [proc_step]; repeat case_match; cbn; auto.
Qed.

Lemma run_wm_closed env sched : forall p,
  wm_open p = false -> wm_open (fold_left (proc_step env) sched p) = false.
Proof.
  induction sched as [|e sched IH]; intros p H; [exact H|].
  cbn [fold_left]. apply IH. destruct (proc_step_wm_open env p e) as [E|E]; congruence.
Qed.

(** X14: in synthetic mode the instrument plays no part: the run is the same
    whether the instrument can be reached or not, and under every schedule
    nothing is sent to it, nothing is asked of it, and no connection is
    open. *)
Theorem debug_run_never_touches_instrument (env : Env) (args : Args) (cwd stamp : string)
    (r1 r2 : connect_result) (sched : list pevent) (w : World) :
  debug args = true ->
  let p := main env args (mkHost cwd stamp r1) sched w in
  p = main env args (mkHost cwd stamp r2) sched w /\
  bus (world p) = bus w /\ queries (world p) = queries w /\ wm_open p = false.
Proof.
  intros Hd p. subst p. unfold main.
  assert (E : main_start args (mkHost cwd stamp r1) w = main_start args (mkHost cwd stamp r2) w).
  { unfold main_start, make_readout_dir. cbn [getcwd now open_resource]. rewrite Hd. done. }
  split; [by rewrite E|].
  set (p0 := main_start args (mkHost cwd stamp r1) w).
  destruct (run_traffic env sched p0) as (_ & _ & H2 & _ & H4).
  assert (E0 : bus (world p0) = bus w /\ queries (world p0) = queries w /\ wm_open p0 = false /\
               (thread_args p0 = None \/
                exists a, thread_args p0 = Some a /\ debug_mode a = true)).
  { subst p0. unfold main_start. rewrite Hd.
    destruct (makedirs (fs w) _); cbn; [|by auto].
    split; [done|]. split; [done|]. split; [done|]. right. eexists. split; [done|]. done. }
  destruct E0 as (E1 & E2 & E3 & E4).
  rewrite <- E1, <- E2.
  split; [|split]; [| |by apply run_wm_closed].
  - destruct E4 as [E4|(a & E4 & E5)]; [by apply H4|by apply (H2 a)].
  - destruct E4 as [E4|(a & E4 & E5)]; [by apply H4|by apply (H2 a)].
Qed.

Lemma debug_run_never_touches_instrument_witness :
  let p := main lab_env debug_args (mkHost "/home/lab" "20250101_120000" ConnectFails)
             (replicate 21 PThread) (World_init lab_fs) in
  p = main lab_env debug_args host_up (replicate 21 PThread) (World_init lab_fs) /\
  bus (world p) = [] /\ queries (world p) = 0%nat /\ random_draws (world p) = 2%nat.
Proof.
  intros p.
  destruct (debug_run_never_touches_instrument lab_env debug_args "/home/lab" "20250101_120000"
              ConnectFails (Connected "HP,86120B") (replicate 21 PThread) (World_init lab_fs)
              eq_refl) as (H1 & H2 & H3 & _).
  split; [exact H1|]. split; [exact H2|]. split; [exact H3|]. vm_compute. reflexivity.
Defined.

(** ** [main]: how the process ends *)

Lemma proc_step_no_ctrl_c env p e :
  e <> PCtrlC -> main_at p <> M206 -> (forall c, main_at p <> Mexit c) ->
  wm_open (proc_step env p e) = wm_open p /\
  main_at (proc_step env p e) <> M206 /\
  (forall c, main_at (proc_step env p e) <> Mexit c).
Proof.
  intros He H1 H2. destruct e; cbn [proc_step]; try done.
  - destruct (thread p) as [[a f]|]; done.
  - destruct (main_at p) eqn:E; rewrite ?E; try done.
    destruct (if bool_decide _ then _ else _); cbn; rewrite ?E; done.
  - destruct (window p); done.
  - destruct (window p); [|done]. destruct (data_signal (world p)) as [|[t v] rest]; done.
  - destruct (window p); done.
Qed.

Lemma run_no_ctrl_c env sched : forall p,
  PCtrlC ∉ sched -> main_at p <> M206 -> (forall c, main_at p <> Mexit c) ->
  wm_open (fold_left (proc_step env) sched p) = wm_open p /\
  main_at (fold_left (proc_step env) sched p) <> M206 /\
  (forall c, main_at (fold_left (proc_step env) sched p) <> Mexit c).
Proof.
  induction sched as [|e sched IH]; intros p Hs H1 H2; [done|].
  cbn [fold_left]. apply not_elem_of_cons in Hs as [He Hs].
  destruct (proc_step_no_ctrl_c env p e) as (A1 & A2 & A3); [done|done|done|].
  destruct (IH (proc_step env p e) Hs A2 A3) as (B1 & B2 & B3).
  split; [congruence|done].
Qed.

(** X15: [wm.close()] and [sys.exit(0)] stand in the handler of
    [KeyboardInterrupt] only: on a run that gets no Ctrl+C, whatever else
    happens (the window is closed, the loop ends or fails), [main] never
    reaches them, and a connection that was opened is still open when
    [main] is gone. *)
Theorem instrument_closed_only_after_ctrl_c (env : Env) (args : Args) (h : Host)
    (sched : list pevent) (w : World) :
  PCtrlC ∉ sched ->
  let p := main env args h sched w in
  wm_open p = wm_open (main_start args h w) /\
  main_at p <> M206 /\ (forall c, main_at p <> Mexit c) /\
  (forall idn fs1, debug args = false -> open_resource h = Connected idn ->
     makedirs (fs w) (make_readout_dir h) = inl fs1 -> wm_open p = true).
Proof.
  intros Hs p. subst p. unfold main.
  assert (H0 : main_at (main_start args h w) <> M206 /\
               forall c, main_at (main_start args h w) <> Mexit c).
  { unfold main_start. destruct (makedirs _ _); [|done].
    destruct (debug args); [done|]. destruct (open_resource h); done. }
  destruct H0 as [H1 H2].
  destruct (run_no_ctrl_c env sched _ Hs H1 H2) as (A1 & A2 & A3).
  split; [exact A1|]. split; [exact A2|]. split; [exact A3|].
  intros idn fs1 Hd Ho Hm. rewrite A1. unfold main_start. rewrite Hm, Hd, Ho. done.
Qed.

Lemma instrument_closed_only_after_ctrl_c_witness :
  let sched := replicate 13 PThread ++ [PClose; PMain] ++ replicate 10 PThread in
  let p := main lab_env (mkArgs true "WAVelength" ".001" "air" "OFF" false) host_up sched
             (World_init lab_fs) in
  exit_status p = Some 0%Z /\ main_at p = Mreturned /\ thread_over p = true /\
  wm_open p = true.
Proof.
  intros sched p.
  assert (E0 : PCtrlC ∉ sched).
  { subst sched. intros Hin.
    rewrite !elem_of_app, !elem_of_replicate, !elem_of_cons, elem_of_nil in Hin.
    destruct Hin as [[H _]|[[H|[H|[]]]|[H _]]]; discriminate H. }
  assert (E1 : exit_status p = Some 0%Z /\ main_at p = Mreturned /\ thread_over p = true)
    by (vm_compute; done).
  destruct E1 as (E1 & E2 & E3).
  assert (E4 : exists fs1, makedirs (fs (World_init lab_fs)) (make_readout_dir host_up) = inl fs1).
  { eexists. vm_compute. reflexivity. }
  destruct E4 as [fs1 E4].
  destruct (instrument_closed_only_after_ctrl_c lab_env
              (mkArgs true "WAVelength" ".001" "air" "OFF" false) host_up sched
              (World_init lab_fs) E0) as (_ & _ & _ & H).
  split; [exact E1|]. split; [exact E2|]. split; [exact E3|].
  exact (H "HP,86120B" fs1 eq_refl eq_refl E4).
Defined.








Lemma step_finished env a w f : finished f = true -> step env a w f = (w, f).
Proof. unfold finished, step. destruct (at_line f); done. Qed.

Lemma step_keeps_stop env a w f :
  is_set (stop_event w) = true -> is_set (stop_event (step env a w f).1) = true.
Proof.
  intros H. destruct (act_after_stop env a (w, f) AStep H) as (A1 & _). exact A1.
Qed.

Lemma proc_step_waits env (g : bool) p e :
  let ok (p : Proc) :=
    (if g then is_Some (window p) else window p = None) /\
    (is_Some (window p) -> window_open p = false ->
     is_set (stop_event (world p)) = true) /\
    (main_at p = Mreturned ->
     if g then window_open p = false /\ is_set (stop_event (world p)) = true
     else thread_over p = true) in
  ok p -> ok (proc_step env p e).
Proof.
  intros ok. subst ok. cbv beta.
  destruct e; cbn [proc_step].
  - destruct (thread p) as [[a f]|] eqn:Ht; [|exact id].
    intros (H1 & H2 & H3). cbn [window window_open world main_at].
    split; [done|]. split.
    + intros Hw Ho. apply step_keeps_stop. by apply H2.
    + intros Hm. specialize (H3 Hm). destruct g.
      * destruct H3 as [H3 H4]. split; [done|]. by apply step_keeps_stop.
      * unfold thread_over in *. rewrite Ht in H3. cbn [thread].
        by rewrite (step_finished env a (world p) f H3).
  - destruct (main_at p) eqn:Em; try (rewrite Em; exact id).
    + destruct (bool_decide (is_Some (window p))) eqn:Ew.
      * apply bool_decide_eq_true_1 in Ew.
        destruct (window_open p) eqn:Eo; cbn [negb]; [rewrite Em, Eo; exact id|].
        intros (H1 & H2 & H3).
        cbn [window window_open world main_at].
        split; [done|]. split; [intros _ _; by apply H2|]. intros _. destruct g.
        -- split; [done|]. by apply H2.
        -- destruct Ew as [pw Ew]. congruence.
      * apply bool_decide_eq_false_1 in Ew.
        destruct (thread_over p) eqn:Eo; [|rewrite ?Em, ?Eo; exact id].
        intros (H1 & H2 & H3).
        cbn [window window_open world main_at].
        split; [done|]. split; [done|]. intros _. destruct g.
        -- done.
        -- unfold thread_over in *. exact Eo.
    + destruct (thread_over p) eqn:Eo; [|rewrite ?Em, ?Eo; exact id].
      intros (H1 & H2 & H3).
      cbn [window window_open world main_at]. split; [done|]. split; [|done].
      intros Hw Ho. by apply H2.
  - destruct (window p) as [pw|] eqn:Ew; [|rewrite Ew; exact id].
    intros (H1 & H2 & H3).
    cbn [window window_open world main_at]. rewrite ?Ew. split; [done|]. split; [done|].
    intros Hm. specialize (H3 Hm). destruct g; [done|].
    unfold thread_over in *. exact H3.
  - destruct (main_at p) eqn:Em; try (rewrite Em; exact id).
    destruct (window p) as [pw|] eqn:Ew; intros (H1 & H2 & H3);
      cbn [window window_open world main_at]; rewrite ?Ew.
    + split; [done|]. split; [done|]. discriminate.
    + split; [done|]. split; [intros [? ?]; done|discriminate].
  - destruct (window p) as [pw|] eqn:Ew; [|rewrite Ew; exact id].
    destruct (data_signal (world p)) as [|[t v] rest] eqn:Ed; [rewrite Ew; exact id|].
    intros (H1 & H2 & H3).
    cbn [window window_open world main_at stop_event].
    split; [destruct g; [by eexists|done]|]. split.
    + intros _ Ho. apply H2; [by eexists|done].
    + intros Hm. specialize (H3 Hm). destruct g; [done|].
      unfold thread_over in *. exact H3.
  - destruct (window p) as [pw|] eqn:Ew; [|rewrite Ew; exact id].
    intros (H1 & H2 & H3).
    cbn [window window_open world main_at].
    split; [destruct g; [by eexists|done]|]. split.
    + intros _ Ho. apply H2; [by eexists|done].
    + intros Hm. specialize (H3 Hm). destruct g; [done|].
      unfold thread_over in *. exact H3.
Qed.

Lemma run_waits env (g : bool) sched : forall p,
  ((if g then is_Some (window p) else window p = None) /\
   (is_Some (window p) -> window_open p = false ->
    is_set (stop_event (world p)) = true) /\
   (main_at p = Mreturned ->
    if g then window_open p = false /\ is_set (stop_event (world p)) = true
    else thread_over p = true)) ->
  main_at (fold_left (proc_step env) sched p) = Mreturned ->
  if g
  then window_open (fold_left (proc_step env) sched p) = false /\
       is_set (stop_event (world (fold_left (proc_step env) sched p))) = true
  else thread_over (fold_left (proc_step env) sched p) = true.
Proof.
  induction sched as [|e sched IH]; intros p H.
  - cbn. destruct H as (_ & _ & H). exact H.
  - cbn [fold_left]. apply IH. by apply (proc_step_waits env g p e).
Qed.

(** X17: once the measurement thread is started, [main] leaves its wait without
    a Ctrl+C in two ways only.  Without a window it returns only when the
    thread is over (the loop of line 196).  With a window it returns when
    the Qt loop ends, that is when the window was closed, and then the
    stop event is set, so that the thread, which may still run, stops
    after the tick at hand. *)
Theorem main_returns_after_thread_or_window (env : Env) (args : Args) (h : Host)
    (sched : list pevent) (w : World) :
  let p := main env args h sched w in
  main_at p = Mreturned -> thread p <> None ->
  if graph args
  then window_open p = false /\ is_set (stop_event (world p)) = true
  else thread_over p = true.
Proof.
  intros p Hm Ht. subst p. unfold main in *.
  set (p0 := main_start args h w) in *.
  destruct (run_traffic env sched p0) as (Ha & _).
  assert (Ht0 : thread p0 <> None).
  { intros E. apply Ht. unfold thread_args in Ha. rewrite E in Ha.
    destruct (thread (fold_left _ _ _)); [discriminate Ha|done]. }
  apply run_waits; [|exact Hm].
  subst p0. unfold main_start in *.
  destruct (makedirs (fs w) (make_readout_dir h)); [|done].
  destruct (debug args).
  - cbn. destruct (graph args); cbn; (split; [by eauto|]); split; done.
  - destruct (open_resource h); [|done].
    cbn. destruct (graph args); cbn; (split; [by eauto|]); split; done.
Qed.

Lemma main_returns_after_thread_or_window_witness :
  let graph_sched := replicate 13 PThread ++ [PClose; PMain] in
  let plain_sched := replicate 5 PThread ++ [PMain; PClose] ++ replicate 5 PThread ++ [PMain] in
  let p := main lab_env graph_args host_up graph_sched (World_init lab_fs) in
  let q := main err_env default_args host_up plain_sched (World_init lab_fs) in
  (main_at p = Mreturned /\ thread_over p = false /\ window_open p = false /\
   is_set (stop_event (world p)) = true) /\
  (main_at q = Mreturned /\ thread_over q = true).
Proof.
  intros graph_sched plain_sched p q.
  assert (E1 : main_at p = Mreturned /\ thread_over p = false) by (vm_compute; done).
  assert (E2 : thread p <> None) by (vm_compute; discriminate).
  assert (E3 : main_at q = Mreturned) by (vm_compute; reflexivity).
  assert (E4 : thread q <> None) by (vm_compute; discriminate).
  destruct E1 as [E1 E5].
  pose proof (main_returns_after_thread_or_window lab_env graph_args host_up graph_sched
                (World_init lab_fs) E1 E2) as Hp.
  pose proof (main_returns_after_thread_or_window err_env default_args host_up plain_sched
                (World_init lab_fs) E3 E4) as Hq.
  split.
  - split; [exact E1|]. split; [exact E5|]. exact Hp.
  - split; [exact E3|exact Hq].
Defined.

(** ** The log opens in the directory [main] made *)

















